(** * ELP2000Calculator: series evaluation, error estimate and truncation plans

    A shallow embedding of [src/ELP2000Calculator.js].  The calculator works on
    JavaScript numbers; every definition below is written once over an abstract
    number type (class [Number]) and then read at two instances: IEEE binary64
    (Rocq's primitive floats, the numbers JavaScript computes with) and the
    real numbers (the exact reading of the same formulas). *)

From Stdlib Require Import ZArith List Bool Lia.
From Stdlib Require Floats Reals Lra.
From Stdlib Require String Ascii.
Import ListNotations.

Set Implicit Arguments.

Declare Scope js_scope.
Delimit Scope js_scope with js.

(** ** Numbers and the time context *)

(** The operations the calculator applies to JavaScript numbers.  No law is
    assumed of them: a theorem stated over [Number] holds for doubles, NaN and
    rounding included. *)
Class Number (F : Type) : Type := {
  ofZ : Z -> F;
  nadd : F -> F -> F;
  nsub : F -> F -> F;
  nmul : F -> F -> F;
  ndiv : F -> F -> F;
  Math_sqrt : F -> F;
  Math_abs : F -> F;
  nlt : F -> F -> bool;
  nle : F -> F -> bool;
  neq : F -> F -> bool
}.

(** [Math.cos], needed by [calc] only. *)
Class Trig (F : Type) : Type := { Math_cos : F -> F }.

Notation "x + y" := (nadd x y) : js_scope.
Notation "x - y" := (nsub x y) : js_scope.
Notation "x * y" := (nmul x y) : js_scope.
Notation "x / y" := (ndiv x y) : js_scope.
Notation "x <? y" := (nlt x y) : js_scope.
Notation "x >? y" := (nlt y x) : js_scope.
Notation "x <=? y" := (nle x y) : js_scope.
Notation "x === y" := (neq x y) (at level 70, no associativity) : js_scope.
Notation "x !== y" := (negb (neq x y)) (at level 70, no associativity) : js_scope.

(** The part of [JDateRepository] (package [@behaver/jdate], not part of this
    repository) that the calculator uses: the constructor from a Julian date,
    the century count [JDEC] and its powers [JDECP]. *)
Class TimeContext (F JDR : Type) : Type := {
  JDateRepository : F -> JDR;
  JDEC : JDR -> F;
  JDECP : JDR -> nat -> F
}.

(** ** Data model *)

(** One term of a series: [dataArray[i][j]] is a six-element array, read by
    the source at the indexes 0 (amplitude) to 5. *)
Record Term (F : Type) : Type := mkTerm {
  amplitude : F;
  phase0 : F;
  phase1 : F;
  phase2 : F;
  phase3 : F;
  phase4 : F
}.

Definition Block (F : Type) : Type := list (Term F).
Definition SeriesModel (F : Type) : Type := list (Block F).

(** A truncation array as the evaluator receives it: the array itself may be
    [undefined] (outer [None]) and so may each entry (inner [None]). *)
Definition Plan : Type := option (list (option Z)).

(** The array the optimizer builds, every entry a number. *)
Definition given (tNumsArray : list Z) : Plan := Some (map Some tNumsArray).

(** ** Results *)

Inductive exn : Type := TypeError | Error.

(** What a call does: return a value, throw, or still be running when the
    fuel of the model is used up. *)
Inductive outcome (A : Type) : Type :=
| Return (a : A)
| Throw (e : exn)
| OutOfFuel.

Arguments Throw {A} e.
Arguments OutOfFuel {A}.

Definition bind {A B : Type} (m : outcome A) (k : A -> outcome B) : outcome B :=
  match m with
  | Return a => k a
  | Throw e => Throw e
  | OutOfFuel => OutOfFuel
  end.

Notation "x <- m ;; k" := (bind m (fun x => k))
  (at level 61, m at next level, right associativity).

(** ** Arrays *)

(** [l[k]] for a number [k]: [undefined] ([None]) below zero and past the end. *)
Definition item_at {A : Type} (l : list A) (k : Z) : option A :=
  if (k <? 0)%Z then None else nth_error l (Z.to_nat k).

(** [l[k] = v] for [k] inside the array.  (The optimizer writes only to the
    indexes of its blocks; with no block at all it throws before any of its
    arrays is read again, see [step].) *)
Fixpoint assign {A : Type} (l : list A) (k : nat) (v : A) : list A :=
  match l, k with
  | [], _ => []
  | _ :: rest, O => v :: rest
  | x :: rest, S k' => x :: assign rest k' v
  end.

Definition incr (l : list Z) (k : nat) : list Z := assign l k (nth k l 0 + 1)%Z.
Definition decr (l : list Z) (k : nat) : list Z := assign l k (nth k l 0 - 1)%Z.

(** The calculator object: [this.private.jdr]. *)
Record Calculator (JDR : Type) : Type := mkCalculator { jdr : JDR }.

(** The local variables of [makeTruncationNums] that live across the
    iterations of its [while (1)] loop. *)
Module Opt.
Record state (F : Type) : Type := mkState {
  i : nat;
  item : nat;
  tNumsArray : list Z;
  reductionsArray : list F;
  accuracysArray : list F;
  accuracysSum : F;
  maximumError : F
}.
End Opt.

(** The local variables of [makeSafeTruncationNums]: the counter of its
    [for] loop, the array computed last ([undefined] before the first
    iteration) and the budget. *)
Module Safe.
Record state (F : Type) : Type := mkState {
  i : nat;
  tNumsArray : option (list Z);
  maximumError : F
}.
End Safe.

(** One pass through a loop body: go round again, or leave the function. *)
Inductive flow (S : Type) : Type :=
| Next (s : S)
| Done (o : outcome S).

Section Calculator.

Context {F : Type} {NF : Number F}.
Context {JDR : Type} {TC : TimeContext F JDR}.

Local Open Scope js_scope.

(** ** The number of terms kept of a block *)

Definition entry (tNumsArray : Plan) (i : nat) : option Z :=
  match tNumsArray with
  | Some l => match nth_error l i with
              | Some (Some n) => Some n
              | _ => None
              end
  | None => None
  end.

(** [tNumsArray != undefined && tNumsArray[i] != undefined
      ? Math.min(tNumsArray[i], dataArray[i].length) : dataArray[i].length] *)
Definition truncation (tNumsArray : Plan) (i : nat) (block : Block F) : Z :=
  match entry tNumsArray i with
  | Some n => Z.min n (Z.of_nat (length block))
  | None => Z.of_nat (length block)
  end.

(** ** calc *)

Section Calc.

Context {TF : Trig F}.

(** The body of the inner loop of [calc]: one term added to [sum]. *)
Definition addTerm (t1 t2 t3 t4 : F) (sum : F) (term : Term F) : F :=
  let A := phase0 term
           + phase1 term * t1
           + phase2 term * t2
           + phase3 term * t3
           + phase4 term * t4 in
  sum + amplitude term * Math_cos A.

(** The inner loop, [for (var j = 0; j < tNum; j++)], over the first [tNum]
    terms of a block ([tNum] is at most the number of its terms). *)
Definition blockSum (t1 t2 t3 t4 : F) (block : Block F) (tNum : Z) : F :=
  fold_left (addTerm t1 t2 t3 t4) (firstn (Z.to_nat tNum) block) (ofZ 0).

Fixpoint calc_loop (j : JDR) (t1 t2 t3 t4 : F) (blocks : list (Block F))
    (tNumsArray : Plan) (i : nat) (res : F) : F :=
  match blocks with
  | [] => res
  | block :: rest =>
      let sum := blockSum t1 t2 t3 t4 block (truncation tNumsArray i block) in
      calc_loop j t1 t2 t3 t4 rest tNumsArray (S i) (res + sum * JDECP j i)
  end.

Definition calc (this : Calculator JDR) (dataArray : SeriesModel F)
    (tNumsArray : Plan) : F :=
  let j := jdr this in
  let t1 := JDEC j in
  let t2 := JDECP j 2 / ofZ 10000 in
  let t3 := JDECP j 3 / ofZ 100000000 in
  let t4 := JDECP j 4 / ofZ 100000000 in
  calc_loop j t1 t2 t3 t4 dataArray tNumsArray 0 (ofZ 0).

End Calc.

(** ** estimateMaxError *)

Fixpoint estimate_loop (j : JDR) (blocks : list (Block F)) (tNumsArray : Plan)
    (i : nat) (accuracy : F) : outcome F :=
  match blocks with
  | [] => Return accuracy
  | block :: rest =>
      let n := truncation tNumsArray i block in
      if (n =? 0)%Z then estimate_loop j rest tNumsArray (S i) accuracy
      else
        match item_at block (n - 1) with
        | None => Throw TypeError
        | Some term =>
            let A := amplitude term in
            estimate_loop j rest tNumsArray (S i)
              (accuracy + Math_sqrt (ofZ n) * A * JDECP j i)
        end
  end.

Definition estimateMaxError (this : Calculator JDR) (dataArray : SeriesModel F)
    (tNumsArray : Plan) : outcome F :=
  accuracy <- estimate_loop (jdr this) dataArray tNumsArray 0 (ofZ 0) ;;
  Return (ofZ 2 * accuracy).

(** ** makeTruncationNums *)

(** The scan for the largest recorded reduction: [maxReduction] starts at 0,
    a block replaces it only with a strictly larger value, so the first
    maximum wins and [nextItem] stays 0 when no reduction is positive.  (The
    source reads [reductionsArray[j]] for [j < T]; the array has [T] entries.) *)
Fixpoint scan (reductions : list F) (j : nat) (maxReduction : F) (nextItem : nat)
    : nat :=
  match reductions with
  | [] => nextItem
  | r :: rest =>
      if r >? maxReduction then scan rest (S j) r j
      else scan rest (S j) maxReduction nextItem
  end.

(** Leaving the loop because the running total is within the budget: the
    estimate is taken again from the plan and the local budget tightened. *)
Definition adjust (trueMaxError maximumError : F) : F :=
  if trueMaxError >? maximumError
  then maximumError - (trueMaxError - maximumError) * ofZ 4 / ofZ 3
  else maximumError.

(** The same exit with the assignment to [maximumError] left out. *)
Definition keep (trueMaxError maximumError : F) : F := maximumError.

Section Step.

Variable budget : F -> F -> F.
Variable this : Calculator JDR.
Variable dataArray : SeriesModel F.

(** The body of [while (1)] after its two leading [if]s, which fix [item]
    and, when [i === T], count the first term of block 0 into [tNumsArray].
    [dataArray[item]] is looked up first: with no such block the source throws
    a TypeError at its first use, and nothing it did before that in the
    iteration can be seen. *)
Definition iterate (i item : nat) (tNumsArray : list Z) (st : Opt.state F)
    : flow (Opt.state F) :=
  let T := length dataArray in
  match nth_error dataArray item with
  | None => Done (Throw TypeError)
  | Some block =>
      let tNum := (nth item tNumsArray 0 + 1)%Z in
      let undefined :=
        match item_at block (tNum - 1) with None => true | Some _ => false end in
      let reductionsArray :=
        if undefined then assign (Opt.reductionsArray st) item (ofZ 0)
        else Opt.reductionsArray st in
      let tNumsArray := if undefined then decr tNumsArray item else tNumsArray in
      let tNum := if undefined then (tNum - 1)%Z else tNum in
      match item_at block (tNum - 1) with
      | None => Done (Throw TypeError)
      | Some term =>
          let A := amplitude term in
          let accuracy := Math_sqrt (ofZ tNum) * A * JDECP (jdr this) item in
          let accuracysSum :=
            if (i <? T)%nat then Opt.accuracysSum st + accuracy
            else Opt.accuracysSum st in
          let recorded := nth item (Opt.accuracysArray st) (ofZ 0) in
          let reduction :=
            Math_abs (if recorded !== ofZ 0 then recorded - accuracy
                      else accuracy) in
          let reductionsArray := assign reductionsArray item reduction in
          (* i > T - 1 *)
          let greedy := (T <=? i)%nat in
          let nextItem :=
            if greedy then scan reductionsArray 0 (ofZ 0) 0 else 0%nat in
          let tNumsArray := if greedy then incr tNumsArray nextItem else tNumsArray in
          let accuracysSum :=
            if greedy then accuracysSum - (recorded - accuracy) else accuracysSum in
          let accuracysArray := assign (Opt.accuracysArray st) item accuracy in
          let maximumError := Opt.maximumError st in
          if (T <? i)%nat && (Math_abs accuracysSum <=? maximumError) then
            Done (trueMaxError <- estimateMaxError this dataArray (given tNumsArray) ;;
                  Return (Opt.mkState i item tNumsArray reductionsArray
                            accuracysArray accuracysSum
                            (budget trueMaxError maximumError)))
          else if (nth (T - 1) tNumsArray 0
                   =? Z.of_nat (length (nth (T - 1) dataArray [])))%Z then
            Done (Return (Opt.mkState i item tNumsArray reductionsArray
                            accuracysArray accuracysSum maximumError))
          else
            Next (Opt.mkState (S i) nextItem tNumsArray reductionsArray
                    accuracysArray accuracysSum maximumError)
      end
  end.

(** One iteration of [while (1)]. *)
Definition step_with (st : Opt.state F) : flow (Opt.state F) :=
  let T := length dataArray in
  let i := Opt.i st in
  let item := if (i <? T)%nat then (i mod T)%nat else Opt.item st in
  let item := if (i =? T)%nat then 0%nat else item in
  let tNumsArray :=
    if (i =? T)%nat then incr (Opt.tNumsArray st) 0 else Opt.tNumsArray st in
  iterate i item tNumsArray st.

Fixpoint loop_with (fuel : nat) (st : Opt.state F) : outcome (Opt.state F) :=
  match fuel with
  | O => OutOfFuel
  | S fuel' =>
      match step_with st with
      | Next st' => loop_with fuel' st'
      | Done o => o
      end
  end.

(** The state on entry to the loop: the three arrays filled with 0 for every
    block, [i = 0], [item = 0], [accuracysSum = 0]. *)
Definition start (maximumError : F) : Opt.state F :=
  let T := length dataArray in
  Opt.mkState 0 0 (repeat 0%Z T) (repeat (ofZ 0) T) (repeat (ofZ 0) T)
    (ofZ 0) maximumError.

(** The whole function up to its [return]: the parameter check, then the loop.
    The result is the state in which the loop was left. *)
Definition run_with (fuel : nat) (maximumError : F) : outcome (Opt.state F) :=
  if maximumError <? ofZ 0 then Throw Error
  else loop_with fuel (start maximumError).

End Step.

Definition step := step_with adjust.
Definition loop := loop_with adjust.
Definition run := run_with adjust.

Definition makeTruncationNums (fuel : nat) (this : Calculator JDR)
    (dataArray : SeriesModel F) (maximumError : F) : outcome (list Z) :=
  st <- run this dataArray fuel maximumError ;;
  Return (Opt.tNumsArray st).

(** [makeTruncationNums] without the assignment to [maximumError] on exit. *)
Definition makeTruncationNums_unadjusted (fuel : nat) (this : Calculator JDR)
    (dataArray : SeriesModel F) (maximumError : F) : outcome (list Z) :=
  st <- run_with keep this dataArray fuel maximumError ;;
  Return (Opt.tNumsArray st).

(** ** makeMeanTruncationNums *)

(** The setter [set jdr]: an object built by [new JDateRepository] passes its
    [instanceof] test. *)
Definition set_jdr (this : Calculator JDR) (j : JDR) : Calculator JDR :=
  mkCalculator j.

(** [sumsArray[j] += tNumsArray[j]] for every [j < tNumsArray.length], a sum
    that is still [undefined] being set to 0 first. *)
Fixpoint accumulate (sumsArray tNumsArray : list Z) {struct tNumsArray} : list Z :=
  match sumsArray, tNumsArray with
  | _, [] => sumsArray
  | [], n :: rest => (0 + n)%Z :: accumulate [] rest
  | s :: sums, n :: rest => (s + n)%Z :: accumulate sums rest
  end.

(** [Math.ceil(s / n)] for integers [s] and [n > 0].  (The sums are integers
    far below 2^45, where the rounded quotient of doubles has the exact
    quotient's ceiling.) *)
Definition ceil_div (s n : Z) : Z := (- ((- s) / n))%Z.

Section Mean.

Variable fuel : nat.
Variable dataArray : SeriesModel F.

(** The sampling loop, [count] iterations from the index [i] on.  A call of
    [makeTruncationNums] that throws or does not return ends it, the time
    context staying as the loop last set it. *)
Fixpoint mean_loop (maximumError jd0 t : F) (count i : nat)
    (this : Calculator JDR) (sumsArray : list Z)
    : Calculator JDR * outcome (list Z) :=
  match count with
  | O => (this, Return sumsArray)
  | S count' =>
      let jd := jd0 + ofZ (Z.of_nat i) * t in
      let this := set_jdr this (JDateRepository jd) in
      match makeTruncationNums fuel this dataArray maximumError with
      | Return tNumsArray =>
          mean_loop maximumError jd0 t count' (S i) this
            (accumulate sumsArray tNumsArray)
      | Throw e => (this, Throw e)
      | OutOfFuel => (this, OutOfFuel)
      end
  end.

Definition makeMeanTruncationNums (this : Calculator JDR) (maximumError : F)
    : Calculator JDR * outcome (list Z) :=
  let n := 100%nat in
  let t := (ofZ 3912458 - ofZ 260732) / ofZ (Z.of_nat n) in
  let jd0 := ofZ 260732 in
  let (this, sums) := mean_loop maximumError jd0 t n 0 this [] in
  (this,
   sumsArray <- sums ;;
   Return (map (fun s => ceil_div s (Z.of_nat n)) sumsArray)).

(** ** makeSafeTruncationNums *)

(** The [for] loop, with [count = 5 - i] iterations still allowed. *)
Fixpoint safe_loop (count : nat) (this : Calculator JDR) (st : Safe.state F)
    : Calculator JDR * outcome (Safe.state F) :=
  match count with
  | O => (this, Return st)
  | S count' =>
      let maximumError := Safe.maximumError st in
      let i := Safe.i st in
      match makeMeanTruncationNums this maximumError with
      | (this, Return tNumsArray) =>
          match estimateMaxError this dataArray (given tNumsArray) with
          | Return trueMaxError =>
              if trueMaxError >? maximumError then
                safe_loop count' this
                  (Safe.mkState (S i) (Some tNumsArray) (maximumError / ofZ 2))
              else (this, Return (Safe.mkState i (Some tNumsArray) maximumError))
          | Throw e => (this, Throw e)
          | OutOfFuel => (this, OutOfFuel)
          end
      | (this, Throw e) => (this, Throw e)
      | (this, OutOfFuel) => (this, OutOfFuel)
      end
  end.

(** [let tNumsArray; for (var i = 0; i < 5; i++) ...; return tNumsArray] *)
Definition makeSafeTruncationNums (this : Calculator JDR) (maximumError : F)
    : Calculator JDR * outcome (option (list Z)) :=
  let (this, final) := safe_loop 5 this (Safe.mkState 0 None maximumError) in
  (this, st <- final ;; Return (Safe.tNumsArray st)).

End Mean.

End Calculator.

(** ** JavaScript numbers: IEEE binary64 *)

Module Double.
Import Floats.
Local Open Scope float_scope.

(** An integer literal or integer-valued variable as a double (exact below
    2^53). *)
Definition of_Z (z : Z) : float :=
  match z with
  | Z0 => 0
  | Zpos _ => of_uint63 (Uint63.of_Z z)
  | Zneg p => - of_uint63 (Uint63.of_Z (Zpos p))
  end.

(** The arithmetic of JavaScript numbers: [+ - * /] and [Math.sqrt] rounded
    to nearest, [<], [<=] and [===] false on NaN, [-0 === 0]. *)
#[global] Instance number : Number float := {|
  ofZ := of_Z;
  nadd := PrimFloat.add;
  nsub := PrimFloat.sub;
  nmul := PrimFloat.mul;
  ndiv := PrimFloat.div;
  Math_sqrt := PrimFloat.sqrt;
  Math_abs := PrimFloat.abs;
  nlt := PrimFloat.ltb;
  nle := PrimFloat.leb;
  neq := PrimFloat.eqb
|}.

(** Modelled from the spec: the time context, which the spec describes only
    as the provider of [t^k] for the current time [t] in centuries from a
    fixed epoch.  The epoch and scale are those of J2000 (Julian date
    2451545.0, 36525 days to the century). *)
Record JDate : Type := mkJDate { JD : float }.

(** [t^k] by repeated multiplication; [t^0 = 1]. *)
Fixpoint power (t : float) (k : nat) : float :=
  match k with
  | O => 1
  | S k' => power t k' * t
  end.

(** The time [t] of a Julian date, in centuries from the epoch. *)
Definition centuries (j : JDate) : float := (JD j - 2451545) / 36525.

#[global] Instance time : TimeContext float JDate := {|
  JDateRepository := mkJDate;
  JDEC := centuries;
  JDECP := fun j k => power (centuries j) k
|}.

(** A term with the amplitude [a] and all phase coefficients 0. *)
Definition term (a : float) : Term float := mkTerm a 0 0 0 0 0.

End Double.

(** ** The exact reading: real numbers *)

Module Exact.
Import Reals.
Local Open Scope R_scope.

(** The comparisons as truth values. *)
Definition ltb (x y : R) : bool := if Rlt_dec x y then true else false.
Definition leb (x y : R) : bool := if Rle_dec x y then true else false.
Definition eqb (x y : R) : bool := if Req_dec_T x y then true else false.

(** Exact arithmetic.  ([sqrt] is 0 on negative numbers, where [Math.sqrt]
    is NaN; the calculator takes roots of term counts only.) *)
#[global] Instance number : Number R := {|
  ofZ := IZR;
  nadd := Rplus;
  nsub := Rminus;
  nmul := Rmult;
  ndiv := Rdiv;
  Math_sqrt := sqrt;
  Math_abs := Rabs;
  nlt := ltb;
  nle := leb;
  neq := eqb
|}.

#[global] Instance trig : Trig R := {| Math_cos := cos |}.

(** Modelled from the spec: the time context over the reals, with the same
    epoch and scale as [Double.JDate]. *)
Record JDate : Type := mkJDate { JD : R }.

(** The time [t] of a Julian date, in centuries from the epoch. *)
Definition centuries (j : JDate) : R := (JD j - 2451545) / 36525.

#[global] Instance time : TimeContext R JDate := {|
  JDateRepository := mkJDate;
  JDEC := centuries;
  JDECP := fun j k => centuries j ^ k
|}.

(** A term with the amplitude [a] and all phase coefficients 0. *)
Definition term (a : R) : Term R := mkTerm a 0 0 0 0 0.

(** A calculator at the epoch J2000.0, where [t = 0]. *)
Definition epoch : Calculator JDate := mkCalculator (mkJDate 2451545).

End Exact.

(** * Properties and specification-side definitions *)

Section Statements.

Context {F : Type} {NF : Number F}.
Context {JDR : Type} {TC : TimeContext F JDR}.

Local Open Scope js_scope.

(** A truncation array of the data model: every entry that is given is a
    non-negative integer. *)
Definition well_formed (tNumsArray : Plan) : Prop :=
  forall i n, entry tNumsArray i = Some n -> (0 <= n)%Z.

(** The share of block [i] in the error estimate when [n] of its terms are
    kept: nothing for [n = 0], else [sqrt(n) * A * t^i] with [A] the amplitude
    of the term of index [n - 1]. *)
Definition share (j : JDR) (i : nat) (n : Z) (block : Block F) : list F :=
  if (n =? 0)%Z then []
  else
    match item_at block (n - 1) with
    | Some term => [Math_sqrt (ofZ n) * amplitude term * JDECP j i]
    | None => []
    end.

(** The effective retained count of block [i] in the spec's words: the
    smaller of the entry [i] of the array and the number of the block's
    terms, or the number of the block's terms when no array is given or the
    entry is not given. *)
Definition retained (tNumsArray : Plan) (i : nat) (block : Block F) : Z :=
  let terms := Z.of_nat (length block) in
  match tNumsArray with
  | None => terms
  | Some entries =>
      match nth i entries None with
      | None => terms
      | Some n => if (n <? terms)%Z then n else terms
      end
  end.

(** The shares of the blocks from index [i] on, in block order, each at its
    effective retained count. *)
Fixpoint shares (j : JDR) (tNumsArray : Plan) (blocks : list (Block F)) (i : nat)
    : list F :=
  match blocks with
  | [] => []
  | block :: rest =>
      share j i (retained tNumsArray i block) block
        ++ shares j tNumsArray rest (S i)
  end.

(** The sum of a list of numbers, taken from the left starting at 0. *)
Definition total (l : list F) : F := fold_left nadd l (ofZ 0).

(** The estimate in the spec's words: twice the sum of the shares of the
    blocks that keep at least one term. *)
Definition estimate_spec (this : Calculator JDR) (dataArray : SeriesModel F)
    (tNumsArray : Plan) : F :=
  ofZ 2 * total (shares (jdr this) tNumsArray dataArray 0).







(** The optimizer's loop was left on its test of the running total: past
    the first [T + 1] iterations, [|accuracysSum| <= maximumError]. *)
Definition within_budget (dataArray : SeriesModel F) (maximumError : F)
    (st : Opt.state F) : Prop :=
  (length dataArray < Opt.i st)%nat
  /\ (Math_abs (Opt.accuracysSum st) <=? maximumError) = true.

(** The forced exit as the source tests it: the entry of the last block is
    the number of that block's terms. *)
Definition last_block_full (dataArray : SeriesModel F) (tNumsArray : list Z)
    : Prop :=
  let T := length dataArray in
  nth (T - 1) tNumsArray 0%Z = Z.of_nat (length (nth (T - 1) dataArray [])).


(** One entry per block, each between 0 and the number of the block's terms. *)
Definition in_range (dataArray : SeriesModel F) (tNumsArray : list Z) : Prop :=
  Forall2 (fun n block => (0 <= n <= Z.of_nat (length block))%Z)
    tNumsArray dataArray.

Definition nonempty_blocks (dataArray : SeriesModel F) : Prop :=
  Forall (fun block : Block F => block <> []) dataArray.

(** Every entry is at least 0 and below the number of its block's terms. *)
Definition below (dataArray : SeriesModel F) (tNumsArray : list Z) : Prop :=
  length tNumsArray = length dataArray
  /\ forall k block, nth_error dataArray k = Some block ->
       (0 <= nth k tNumsArray 0 < Z.of_nat (length block))%Z.

(** What the optimizer's arrays satisfy when an iteration of the greedy pass
    starts on [item]: only that block's entry may have reached the number of
    its terms. *)
Definition bounded (dataArray : SeriesModel F) (tNumsArray : list Z) (item : nat)
    : Prop :=
  length tNumsArray = length dataArray
  /\ forall k block, nth_error dataArray k = Some block ->
       (0 <= nth k tNumsArray 0 <= Z.of_nat (length block))%Z
       /\ (k <> item -> (nth k tNumsArray 0 < Z.of_nat (length block))%Z).

(** The invariant of the optimizer's loop: all entries are still 0 up to the
    iteration [i = T]; afterwards they are [bounded]. *)
Definition loop_invariant (dataArray : SeriesModel F) (st : Opt.state F) : Prop :=
  let T := length dataArray in
  length (Opt.reductionsArray st) = T
  /\ (((Opt.i st <= T)%nat /\ Opt.tNumsArray st = repeat 0%Z T)
      \/ ((T < Opt.i st)%nat /\ (Opt.item st < T)%nat
          /\ bounded dataArray (Opt.tNumsArray st) (Opt.item st))).



End Statements.

(** ** The inputs of the examples *)

Module Examples.
Import Floats.
Import Double.

(** A calculator at the epoch J2000.0, where [t = 0]. *)
Definition J2000 : Calculator JDate := mkCalculator (mkJDate 2451545).

(** A calculator at the Julian date of the package's documentation. *)
Definition documented : Calculator JDate := mkCalculator (mkJDate 2446896).

(** One block of three terms, the model of the spec's scenario. *)
Definition scenario : SeriesModel float := [[term 10; term 3; term 1]].


(** Two blocks, of one and of two terms. *)
Definition two_blocks : SeriesModel float := [[term 10]; [term 3; term 1]].

(** The state of the optimizer's loop on [two_blocks] at [t = 0] with the
    budget 0, from the fourth iteration on ([i = 3 + k]): block 0, of one
    term, is processed again and again; its reduction is 0, so is that of
    block 1, and the scan selects block 0. *)
Definition caught (k : nat) : Opt.state float :=
  Opt.mkState (3 + k) 0 [1%Z; 0%Z] [0%float; 0%float] [10%float; 0%float]
    10%float 0%float.

(** Two blocks of one and of two terms, those of the second of amplitude 0. *)
Definition silent_second : SeriesModel float :=
  [[term 10%float]; [term 0%float; term 0%float]].

(** The state of the loop on [silent_second] with the budget 0, from the
    fourth iteration on, whatever the time: [z], the accuracy recorded for
    the second block, is a zero of either sign. *)
Definition stalled (z : float) (k : nat) : Opt.state float :=
  Opt.mkState (3 + k) 0 [1%Z; 0%Z] [0%float; 0%float] [10%float; z]
    10%float 0%float.

End Examples.

(** ** Further properties of the calculator *)

Section MoreStatements.

Context {F : Type}.

(** Every entry that meets a block is either not given or at least the
    number of the block's terms. *)
Definition covers (dataArray : SeriesModel F) (tNumsArray : Plan) : Prop :=
  forall i block n,
    nth_error dataArray i = Some block -> entry tNumsArray i = Some n ->
    (Z.of_nat (length block) <= n)%Z.

(** Some entry that meets a block is negative. *)
Definition negative_entry (dataArray : SeriesModel F) (tNumsArray : Plan)
    : Prop :=
  exists i block n,
    nth_error dataArray i = Some block /\ entry tNumsArray i = Some n
    /\ (n < 0)%Z.

(** The sums of [c] arrays that are each within the blocks. *)
Definition summed (c : Z) : list Z -> SeriesModel F -> Prop :=
  Forall2 (fun s (block : Block F) => (0 <= s <= c * Z.of_nat (length block))%Z).

(** The array of [makeSafeTruncationNums]' loop is computed and within the
    blocks. *)
Definition settled (dataArray : SeriesModel F) (st : Safe.state F) : Prop :=
  exists plan, Safe.tNumsArray st = Some plan /\ in_range dataArray plan.

End MoreStatements.

(** ** The facade: ELP2000MoonGECC *)

Module Moon.
Import Ascii String.

Local Open Scope string_scope.

(** The part of [CacheSpaceOnJDate] (package [@behaver/jdate], not part of
    this repository) that the facade uses: a store of numbers under names. *)
Class CacheSpace (F JDR C : Type) : Type := {
  cache_new : JDR -> C;
  cache_has : C -> string -> bool;
  cache_get : C -> string -> option F;
  cache_set : C -> string -> F -> C;
  cache_remove : C -> string -> C;
  cache_clear : C -> C;
  cache_on : C -> JDR -> C
}.

(** What is taken for granted of the store: a removed name is absent,
    removing a name leaves the others alone, and a value that was set is the
    one read back. *)
Class CacheLaws (F JDR C : Type) {CS : CacheSpace F JDR C} : Prop := {
  has_remove_same : forall (c : C) k, cache_has (cache_remove c k) k = false;
  has_remove_other : forall (c : C) k k',
      k <> k' -> cache_has (cache_remove c k) k' = cache_has c k';
  get_remove_other : forall (c : C) k k',
      k <> k' -> cache_get (cache_remove c k) k' = cache_get c k';
  get_set_same : forall (c : C) k v, cache_get (cache_set c k v) k = Some v
}.

(** A store kept as a list of named values, the newest first. *)
#[global] Instance list_cache (F JDR : Type)
    : CacheSpace F JDR (list (string * F)) := {|
  cache_new := fun _ => [];
  cache_has := fun c k => existsb (fun e => fst e =? k) c;
  cache_get := fun c k =>
    match find (fun e => fst e =? k) c with
    | Some e => Some (snd e)
    | None => None
    end;
  cache_set := fun c k v => (k, v) :: c;
  cache_remove := fun c k => filter (fun e => negb (fst e =? k)) c;
  cache_clear := fun _ => [];
  cache_on := fun _ _ => []
|}.

(** [new Angle(value, unit)]: the value is what [cache.get] gave. *)
Record Angle (F : Type) : Type := mkAngle {
  angle_value : option F;
  angle_unit : string
}.

(** [this.private.l], [.b] and [.r]: the series and its truncation array,
    [undefined] until one is set. *)
Record series (F : Type) : Type := mkSeries {
  data : SeriesModel F;
  truncationNums : Plan
}.

(** The object: [this.private.jdate], [this.cache], [this.calculator],
    [this.private.l], [.b], [.r] and [this.private.accuracy]. *)
Record state (F JDR C : Type) : Type := mkMoon {
  jdate : JDR;
  cache : C;
  calculator : Calculator JDR;
  l : series F;
  b : series F;
  r : series F;
  accuracy : string
}.

(** [String.prototype.toLowerCase] on the letters A to Z.  (Outside ASCII no
    character is lowered to a letter of [true], [mean] or [safe], the only
    strings the result is compared with.) *)
Definition lower (c : ascii) : ascii :=
  let n := nat_of_ascii c in
  if (65 <=? n)%nat && (n <=? 90)%nat then ascii_of_nat (n + 32) else c.

Fixpoint toLowerCase (s : string) : string :=
  match s with
  | EmptyString => EmptyString
  | String c rest => String (lower c) (toLowerCase rest)
  end.

Section Facade.

Context {F : Type} {NF : Number F} {TF : Trig F}.
Context {JDR : Type} {TC : TimeContext F JDR}.
Context {C : Type} {CS : CacheSpace F JDR C}.

Local Open Scope js_scope.

Local Abbreviation moon := (state F JDR C).

(** [constructor(jdate)], with the three data tables it loads. *)
Definition create (LData BData RData : SeriesModel F) (jdate : JDR) : moon :=
  mkMoon jdate (cache_new jdate) (mkCalculator jdate)
    (mkSeries LData None) (mkSeries BData None) (mkSeries RData None)
    "complete".

(** [item !== 'l' && item !== 'b' && item !== 'r'] *)
Definition unknown (item : string) : bool :=
  negb (item =? "l")%string && negb (item =? "b")%string
  && negb (item =? "r")%string.

(** [this.private[item]] for one of the three names. *)
Definition field (m : moon) (item : string) : series F :=
  if (item =? "l")%string then l m
  else if (item =? "b")%string then b m
  else r m.

Definition with_cache (m : moon) (c : C) : moon :=
  mkMoon (jdate m) c (calculator m) (l m) (b m) (r m) (accuracy m).

Definition with_calculator (m : moon) (k : Calculator JDR) : moon :=
  mkMoon (jdate m) (cache m) k (l m) (b m) (r m) (accuracy m).

(** [this.private[item].truncationNums = tNumsArray] *)
Definition with_truncation (m : moon) (item : string) (tNumsArray : Plan)
    : moon :=
  if (item =? "l")%string then
    mkMoon (jdate m) (cache m) (calculator m)
      (mkSeries (data (l m)) tNumsArray) (b m) (r m) (accuracy m)
  else if (item =? "b")%string then
    mkMoon (jdate m) (cache m) (calculator m)
      (l m) (mkSeries (data (b m)) tNumsArray) (r m) (accuracy m)
  else
    mkMoon (jdate m) (cache m) (calculator m)
      (l m) (b m) (mkSeries (data (r m)) tNumsArray) (accuracy m).

(** The end of [setTruncation] and of [setMaxError]: the item's cached value
    is removed and the accuracy level becomes [custom]. *)
Definition customised (m : moon) (item : string) : moon :=
  mkMoon (jdate m) (cache_remove (cache m) item) (calculator m)
    (l m) (b m) (r m) "custom".

(** [get b()] *)
Definition get_b (m : moon) : moon * Angle F :=
  let m :=
    if negb (cache_has (cache m) "b") then
      let b := calc (calculator m) (data (b m)) (truncationNums (b m)) in
      with_cache m (cache_set (cache m) "b" b)
    else m in
  (m, mkAngle (cache_get (cache m) "b") "s").

(** [get r()] *)
Definition get_r (m : moon) : moon * option F :=
  let m :=
    if negb (cache_has (cache m) "r") then
      let r := calc (calculator m) (data (r m)) (truncationNums (r m)) in
      with_cache m (cache_set (cache m) "r" r)
    else m in
  (m, cache_get (cache m) "r").

(** [get longitudePerturbationCorrection()] *)
Definition get_longitudePerturbationCorrection (m : moon) : moon * Angle F :=
  let m :=
    if negb (cache_has (cache m) "longitudePerturbationCorrection") then
      let lpc := calc (calculator m) (data (l m)) (truncationNums (l m)) in
      with_cache m (cache_set (cache m) "longitudePerturbationCorrection" lpc)
    else m in
  (m, mkAngle (cache_get (cache m) "longitudePerturbationCorrection") "s").

(** [set obTime(jdr)] *)
Definition set_obTime (m : moon) (j : JDR) : moon :=
  mkMoon j (cache_on (cache m) j) (set_jdr (calculator m) j)
    (l m) (b m) (r m) (accuracy m).

(** [get obTime()] *)
Definition get_obTime (m : moon) : JDR := jdate m.

(** [setTruncation(item, tNumsArray)] *)
Definition setTruncation (m : moon) (item : string)
    (tNumsArray : list (option Z)) : moon * outcome unit :=
  if unknown item then (m, Throw Error)
  else (customised (with_truncation m item (Some tNumsArray)) item, Return tt).

(** [getTruncation(item)] *)
Definition getTruncation (m : moon) (item : string) : outcome Plan :=
  if unknown item then Throw Error
  else Return (truncationNums (field m item)).

(** [setMaxError(item, value, mode)] *)
Definition setMaxError (fuel : nat) (m : moon) (item : string) (value : F)
    (mode : string) : moon * outcome unit :=
  if unknown item then (m, Throw Error)
  else if value <? ofZ 0 then (m, Throw Error)
  else
    let series := data (field m item) in
    let mode := toLowerCase mode in
    if (mode =? "true")%string then
      match makeTruncationNums fuel (calculator m) series value with
      | Return tNumsArray =>
          (customised (with_truncation m item (given tNumsArray)) item, Return tt)
      | Throw e => (m, Throw e)
      | OutOfFuel => (m, OutOfFuel)
      end
    else if (mode =? "mean")%string then
      match makeMeanTruncationNums fuel series (calculator m) value with
      | (k, Return tNumsArray) =>
          (customised
             (with_truncation (with_calculator m k) item (given tNumsArray))
             item,
           Return tt)
      | (k, Throw e) => (with_calculator m k, Throw e)
      | (k, OutOfFuel) => (with_calculator m k, OutOfFuel)
      end
    else if (mode =? "safe")%string then
      match makeSafeTruncationNums fuel series (calculator m) value with
      | (k, Return tNumsArray) =>
          (customised
             (with_truncation (with_calculator m k) item
                match tNumsArray with
                | Some plan => given plan
                | None => None
                end)
             item,
           Return tt)
      | (k, Throw e) => (with_calculator m k, Throw e)
      | (k, OutOfFuel) => (with_calculator m k, OutOfFuel)
      end
    else (m, Throw Error).

(** [getMaxError(item)] *)
Definition getMaxError (m : moon) (item : string) : outcome F :=
  if unknown item then Throw Error
  else estimateMaxError (calculator m) (data (field m item))
         (truncationNums (field m item)).

(** The three arrays that [set accuracy] installs for a named level. *)
Definition installed (m : moon) (tl tb tr : list Z) : moon :=
  mkMoon (jdate m) (cache m) (calculator m)
    (mkSeries (data (l m)) (given tl)) (mkSeries (data (b m)) (given tb))
    (mkSeries (data (r m)) (given tr)) (accuracy m).

(** The [if] that ends [set accuracy]: a level other than the current one
    empties the cache and becomes the current one. *)
Definition relabelled (m : moon) (level : string) : moon :=
  if negb (level =? accuracy m)%string then
    mkMoon (jdate m) (cache_clear (cache m)) (calculator m)
      (l m) (b m) (r m) level
  else m.

(** [set accuracy(level)] *)
Definition set_accuracy (m : moon) (level : string) : moon * outcome unit :=
  if (level =? "low")%string then
    (relabelled
       (installed m [39; 13; 4; 2] [54; 5; 3] [46; 12; 4])%Z level, Return tt)
  else if (level =? "normal")%string then
    (relabelled
       (installed m [44; 13; 4; 2] [65; 8; 9] [62; 21; 8])%Z level, Return tt)
  else if (level =? "high")%string then
    (relabelled
       (installed m [51; 13; 4; 2] [69; 8; 12] [77; 38; 11])%Z level, Return tt)
  else if (level =? "fine")%string then
    (relabelled
       (installed m [62; 13; 4; 2] [74; 8; 12] [87; 39; 11])%Z level, Return tt)
  else if (level =? "complete")%string then
    (relabelled m level, Return tt)
  else (m, Throw Error).

(** [get accuracy()] *)
Definition get_accuracy (m : moon) : string := accuracy m.

End Facade.

End Moon.

(** ** More inputs of the examples *)

Module MoreExamples.
Import String Floats Reals.

Local Open Scope string_scope.

(** Two blocks, the first one empty. *)
Definition empty_first : SeriesModel float :=
  [[]; [Double.term 3%float]].

(** Two blocks, the last one empty. *)
Definition empty_last : SeriesModel float :=
  [Double.term 10%float] :: [] ++ [[]].

(** A facade on doubles at the epoch, its three series being the series of
    the spec's scenario, its cache a list store. *)
Definition double_moon
    : Moon.state float Double.JDate (list (string * float)) :=
  Moon.create (CS := Moon.list_cache _ _)
    Examples.scenario Examples.scenario Examples.scenario
    (Double.mkJDate 2451545%float).

(** One block of one term, in exact arithmetic. *)
Definition one_term : SeriesModel R := [[Exact.term 1%R]].


(** A facade in exact arithmetic at the epoch, with that series thrice. *)
Definition exact_moon
    : Moon.state R Exact.JDate (list (string * R)) :=
  Moon.create (CS := Moon.list_cache _ _) one_term one_term one_term
    (Exact.mkJDate 2451545%R).

(** The same facade once the longitude perturbation is cached. *)
Definition cached_moon
    : Moon.state R Exact.JDate (list (string * R)) :=
  Moon.with_cache exact_moon [("longitudePerturbationCorrection", 1%R)].

(** The last of the dates sampled by [makeMeanTruncationNums]. *)
Definition last_sample : Exact.JDate :=
  Exact.mkJDate (260732 + 99 * ((3912458 - 260732) / 100))%R.

(** [exact_moon] after [setMaxError('r', 5, 'mean')]. *)
Definition averaged_moon
    : Moon.state R Exact.JDate (list (string * R)) :=
  Moon.customised
    (Moon.with_truncation
       (Moon.with_calculator exact_moon (mkCalculator last_sample))
       "r" (given [1%Z]))
    "r".

End MoreExamples.

(** * Proofs *)

(** ** Arrays *)

Section Arrays.

Context {A : Type}.

Lemma length_assign (l : list A) (k : nat) (v : A) :
  length (assign l k v) = length l.
Proof.
  revert k; induction l as [|x l IH]; intros [|k]; simpl; auto.
Qed.

Lemma nth_assign_same (l : list A) (k : nat) (v d : A) :
  (k < length l)%nat -> nth k (assign l k v) d = v.
Proof.
  revert k; induction l as [|x l IH]; intros [|k] H; simpl in *; try lia; auto.
  apply IH; lia.
Qed.

Lemma nth_assign_other (l : list A) (k k' : nat) (v d : A) :
  k <> k' -> nth k' (assign l k v) d = nth k' l d.
Proof.
  revert k k'; induction l as [|x l IH]; intros [|k] [|k'] H; simpl;
    try congruence; auto.
Qed.

Lemma nth_error_assign_same (l : list A) (k : nat) (v : A) :
  (k < length l)%nat -> nth_error (assign l k v) k = Some v.
Proof.
  revert k; induction l as [|x l IH]; intros [|k] H; simpl in *; try lia; auto.
  apply IH; lia.
Qed.

Lemma nth_error_assign_other (l : list A) (k k' : nat) (v : A) :
  k <> k' -> nth_error (assign l k v) k' = nth_error l k'.
Proof.
  revert k k'; induction l as [|x l IH]; intros [|k] [|k'] H; simpl;
    try congruence; auto.
Qed.

Lemma item_at_inside (l : list A) (k : Z) :
  (0 <= k < Z.of_nat (length l))%Z -> exists x, item_at l k = Some x.
Proof.
  intros H. unfold item_at.
  destruct (Z.ltb_spec k 0); [lia|].
  destruct (nth_error l (Z.to_nat k)) eqn:E; [eauto|].
  apply nth_error_None in E. lia.
Qed.

Lemma item_at_outside (l : list A) (k : Z) :
  (k < 0 \/ Z.of_nat (length l) <= k)%Z -> item_at l k = None.
Proof.
  intros H. unfold item_at.
  destruct (Z.ltb_spec k 0); [reflexivity|].
  apply nth_error_None. lia.
Qed.

End Arrays.

(** ** The estimate *)

Section Estimate.

Context {F : Type} {NF : Number F}.
Context {JDR : Type} {TC : TimeContext F JDR}.

Local Open Scope js_scope.

Lemma truncation_range (tNumsArray : Plan) (i : nat) (block : Block F) :
  well_formed tNumsArray ->
  (0 <= truncation tNumsArray i block <= Z.of_nat (length block))%Z.
Proof.
  intros W. unfold truncation.
  destruct (entry tNumsArray i) as [n|] eqn:E; [|lia].
  specialize (W _ _ E). lia.
Qed.

(** The count the code computes is the effective retained count of the
    spec. *)
Lemma truncation_retained (tNumsArray : Plan) (i : nat) (block : Block F) :
  truncation tNumsArray i block = retained tNumsArray i block.
Proof.
  unfold truncation, entry, retained.
  destruct tNumsArray as [entries|]; [|reflexivity].
  destruct (nth_error entries i) as [e|] eqn:E.
  - rewrite (nth_error_nth entries i None E).
    destruct e as [n|]; [|reflexivity].
    destruct (Z.ltb_spec n (Z.of_nat (length block))); lia.
  - apply nth_error_None in E. rewrite (nth_overflow entries None E).
    reflexivity.
Qed.

Lemma estimate_loop_shares (j : JDR) (tNumsArray : Plan) :
  well_formed tNumsArray ->
  forall (blocks : list (Block F)) (i : nat) (accuracy : F),
    estimate_loop j blocks tNumsArray i accuracy
    = Return (fold_left nadd (shares j tNumsArray blocks i) accuracy).
Proof.
  intros W. induction blocks as [|block rest IH]; intros i accuracy; simpl.
  - reflexivity.
  - pose proof (truncation_range i block W) as R.
    rewrite <- (truncation_retained tNumsArray i block).
    unfold share.
    destruct (Z.eqb_spec (truncation tNumsArray i block) 0) as [E|E].
    + simpl. apply IH.
    + destruct (item_at_inside block (k := truncation tNumsArray i block - 1))
        as [term Hterm]; [lia|].
      rewrite Hterm. simpl. apply IH.
Qed.

(** On a well-formed array the estimate is computed without error. *)
Lemma estimateMaxError_returns (this : Calculator JDR)
    (dataArray : SeriesModel F) (tNumsArray : Plan) :
  well_formed tNumsArray ->
  exists e, estimateMaxError this dataArray tNumsArray = Return e.
Proof.
  intros W. unfold estimateMaxError.
  rewrite (estimate_loop_shares (jdr this) W). simpl. eauto.
Qed.

Lemma estimate_loop_cons (j : JDR) (tNumsArray : Plan) (block : Block F)
    (rest : list (Block F)) (i : nat) (accuracy e : F) :
  estimate_loop j (block :: rest) tNumsArray i accuracy = Return e ->
  estimate_loop j rest tNumsArray (S i)
    (fold_left nadd (share j i (truncation tNumsArray i block) block) accuracy)
  = Return e.
Proof.
  simpl. unfold share.
  destruct (truncation tNumsArray i block =? 0)%Z; [auto|].
  destruct (item_at block (truncation tNumsArray i block - 1)); [auto|discriminate].
Qed.

(** C4. For every model and every truncation array of non-negative entries,
    [estimateMaxError] returns [estimate_spec]: twice the sum, over the blocks
    whose effective count [n] is not 0, of [sqrt(n) * A * t^i], where [n] is
    [retained] (the smaller of the entry and the block's length, or the
    block's length when the entry is not given) and [A] is the amplitude of
    the term of index [n - 1]; a block with [n = 0] adds nothing.  The count
    and the sum are written from the spec's words, not taken from the code. *)
Theorem estimateMaxError_formula (this : Calculator JDR)
    (dataArray : SeriesModel F) (tNumsArray : Plan) :
  well_formed tNumsArray ->
  estimateMaxError this dataArray tNumsArray
  = Return (estimate_spec this dataArray tNumsArray).
Proof.
  intros W. unfold estimateMaxError, estimate_spec, total.
  rewrite (estimate_loop_shares (jdr this) W). reflexivity.
Qed.

End Estimate.

(** ** The optimizer *)

Section Optimizer.

Context {F : Type} {NF : Number F}.
Context {JDR : Type} {TC : TimeContext F JDR}.

Local Open Scope js_scope.

Variable this : Calculator JDR.
Variable dataArray : SeriesModel F.

(** The array a state of the loop would return. *)
Local Abbreviation plan_of o := (st <- o ;; Return (Opt.tNumsArray st)).

Ltac case_item_at :=
  match goal with
  | |- context [item_at ?b ?k] => destruct (item_at b k) eqn:?
  end.

Ltac case_if :=
  match goal with
  | |- context [if ?c then _ else _] => destruct c eqn:?
  end.

(** *** The entries stay within their blocks *)

Lemma scan_bound (reductions : list F) (j : nat) (maxReduction : F) (nextItem : nat) :
  scan reductions j maxReduction nextItem = nextItem
  \/ (j <= scan reductions j maxReduction nextItem < j + length reductions)%nat.
Proof.
  revert j maxReduction nextItem.
  induction reductions as [|r rest IH]; intros j m next; simpl; [auto|].
  destruct (r >? m).
  - destruct (IH (S j) r j) as [->|H]; right; lia.
  - destruct (IH (S j) m next) as [->|H]; [auto|right; lia].
Qed.

Lemma scan_inside (reductions : list F) (maxReduction : F) :
  (0 < length reductions)%nat ->
  (scan reductions 0 maxReduction 0 < length reductions)%nat.
Proof.
  intros H. destruct (scan_bound reductions 0 maxReduction 0) as [->|B]; lia.
Qed.

Lemma nth_zeros (k n : nat) : nth k (repeat 0%Z n) 0%Z = 0%Z.
Proof.
  revert k; induction n as [|n IH]; intros [|k]; simpl; auto.
Qed.

Lemma nonempty_length (k : nat) (block : Block F) :
  nonempty_blocks dataArray -> nth_error dataArray k = Some block ->
  (0 < Z.of_nat (length block))%Z.
Proof.
  intros N H. unfold nonempty_blocks in N. rewrite Forall_forall in N.
  apply nth_error_In in H. apply N in H. destruct block; [congruence|simpl; lia].
Qed.

Lemma below_zeros :
  nonempty_blocks dataArray -> below dataArray (repeat 0%Z (length dataArray)).
Proof.
  intros N. split; [apply repeat_length|].
  intros k block H. rewrite nth_zeros.
  pose proof (nonempty_length _ N H). lia.
Qed.

Lemma below_incr (tNumsArray : list Z) (nextItem : nat) :
  below dataArray tNumsArray -> (nextItem < length dataArray)%nat ->
  bounded dataArray (incr tNumsArray nextItem) nextItem.
Proof.
  intros [L B] H. unfold incr. split; [rewrite length_assign; exact L|].
  intros k block Hk. specialize (B k block Hk).
  destruct (Nat.eq_dec nextItem k) as [->|D].
  - rewrite nth_assign_same by lia. split; [lia|congruence].
  - rewrite nth_assign_other by exact D. split; [lia|intros _; lia].
Qed.

Lemma bounded_decr (tNumsArray : list Z) (item : nat) (block : Block F) :
  nonempty_blocks dataArray ->
  bounded dataArray tNumsArray item ->
  nth_error dataArray item = Some block ->
  nth item tNumsArray 0%Z = Z.of_nat (length block) ->
  below dataArray (decr tNumsArray item).
Proof.
  intros N [L B] Hitem Hfull. unfold decr.
  split; [rewrite length_assign; exact L|].
  intros k blk Hk.
  destruct (Nat.eq_dec item k) as [<-|D].
  - rewrite nth_assign_same
      by (rewrite L; apply nth_error_Some; congruence).
    assert (blk = block) by congruence; subst blk.
    pose proof (nonempty_length _ N Hitem). lia.
  - rewrite nth_assign_other by exact D.
    destruct (B k blk Hk) as [R S]. specialize (S (not_eq_sym D)). lia.
Qed.

Lemma bounded_below (tNumsArray : list Z) (item : nat) (block : Block F) :
  bounded dataArray tNumsArray item ->
  nth_error dataArray item = Some block ->
  (nth item tNumsArray 0 < Z.of_nat (length block))%Z ->
  below dataArray tNumsArray.
Proof.
  intros [L B] Hitem Hlt. split; [exact L|].
  intros k blk Hk. destruct (B k blk Hk) as [R S].
  destruct (Nat.eq_dec k item) as [->|D].
  - assert (blk = block) by congruence; subst blk. lia.
  - specialize (S D). lia.
Qed.

Lemma bounded_in_range (tNumsArray : list Z) (item : nat) :
  bounded dataArray tNumsArray item -> in_range dataArray tNumsArray.
Proof.
  unfold bounded, in_range. revert tNumsArray item.
  induction dataArray as [|block rest IH]; intros [|n ns] item [L B];
    simpl in L; try discriminate; constructor.
  - destruct (B 0%nat block eq_refl) as [R _]. exact R.
  - apply (IH ns (pred item)). split; [congruence|].
    intros k blk Hk. destruct (B (S k) blk Hk) as [R S]. split; [exact R|].
    intros D. apply S. lia.
Qed.

Lemma bounded_well_formed (tNumsArray : list Z) (item : nat) :
  bounded dataArray tNumsArray item -> well_formed (given tNumsArray).
Proof.
  intros [L B] k n. unfold entry, given.
  rewrite nth_error_map.
  destruct (nth_error tNumsArray k) as [m|] eqn:E; simpl; [|discriminate].
  intros H; inversion H; subst m; clear H.
  assert (Hk : (k < length dataArray)%nat)
    by (rewrite <- L; apply nth_error_Some; congruence).
  destruct (nth_error dataArray k) as [block|] eqn:Eb;
    [|apply nth_error_None in Eb; lia].
  destruct (B k block Eb) as [R _].
  rewrite (nth_error_nth _ _ 0%Z E) in R. lia.
Qed.

Section Invariant.

Variable budget : F -> F -> F.

Lemma iterate_greedy (i item : nat) (tNumsArray : list Z) (st : Opt.state F) :
  nonempty_blocks dataArray ->
  (length dataArray <= i)%nat ->
  (item < length dataArray)%nat ->
  bounded dataArray tNumsArray item ->
  length (Opt.reductionsArray st) = length dataArray ->
  match iterate budget this dataArray i item tNumsArray st with
  | Next st' =>
      Opt.i st' = S i
      /\ (Opt.item st' < length dataArray)%nat
      /\ bounded dataArray (Opt.tNumsArray st') (Opt.item st')
      /\ length (Opt.reductionsArray st') = length dataArray
  | Done (Return st') =>
      exists nextItem, bounded dataArray (Opt.tNumsArray st') nextItem
  | Done _ => False
  end.
Proof.
  intros N Hi Hitem Hb Hred.
  unfold iterate.
  destruct (nth_error dataArray item) as [block|] eqn:Hblock;
    [|apply nth_error_None in Hblock; lia].
  cbv zeta.
  apply Nat.leb_le in Hi. rewrite Hi.
  destruct Hb as [L B]. destruct (B item block Hblock) as [R _].
  pose proof (nonempty_length _ N Hblock) as Hlen.
  assert (Hbelow :
    exists term,
      item_at block
        ((if match item_at block (nth item tNumsArray 0 + 1 - 1) with
             | Some _ => false
             | None => true
             end
          then nth item tNumsArray 0 + 1 - 1
          else nth item tNumsArray 0 + 1) - 1)%Z = Some term
      /\ below dataArray
           (if match item_at block (nth item tNumsArray 0 + 1 - 1)%Z with
               | Some _ => false
               | None => true
               end
            then decr tNumsArray item else tNumsArray)).
  { destruct (Z.eq_dec (nth item tNumsArray 0%Z) (Z.of_nat (length block)))
      as [Hfull|Hless].
    - rewrite (item_at_outside block (k := (nth item tNumsArray 0 + 1 - 1)%Z)) by lia.
      destruct (item_at_inside block (k := (nth item tNumsArray 0 + 1 - 1 - 1)%Z))
        as [term Hterm]; [lia|].
      exists term. split; [exact Hterm|].
      apply (bounded_decr N (conj L B) Hblock Hfull).
    - destruct (item_at_inside block (k := (nth item tNumsArray 0 + 1 - 1)%Z))
        as [term Hterm]; [lia|].
      rewrite Hterm. exists term. split; [exact Hterm|].
      apply (bounded_below (conj L B) Hblock). lia. }
  destruct Hbelow as [term [Hterm Hbelow]]. rewrite Hterm.
  match goal with
  | |- context [scan ?r ?j ?m ?n] => set (nextItem := scan r j m n)
  end.
  assert (Hnext : (nextItem < length dataArray)%nat).
  { unfold nextItem.
    match goal with
    | |- (scan ?r _ _ _ < _)%nat =>
        assert (Hr : length r = length dataArray)
    end.
    { rewrite length_assign.
      destruct (match item_at _ _ with Some _ => false | None => true end);
        rewrite ?length_assign; exact Hred. }
    rewrite <- Hr. apply scan_inside. rewrite Hr. lia. }
  pose proof (below_incr Hbelow Hnext) as Hb.
  match goal with
  | |- context [andb ?a ?b] => destruct (andb a b)
  end.
  - destruct (estimateMaxError_returns this dataArray (bounded_well_formed Hb))
      as [trueMaxError ->].
    simpl. exists nextItem. exact Hb.
  - match goal with
    | |- context [Z.eqb ?a ?b] => destruct (Z.eqb a b)
    end; simpl.
    + exists nextItem. exact Hb.
    + split; [reflexivity|]. split; [exact Hnext|]. split; [exact Hb|].
      rewrite length_assign.
      destruct (match item_at _ _ with Some _ => false | None => true end);
        rewrite ?length_assign; exact Hred.
Qed.

Lemma last_block (d : Block F) :
  (0 < length dataArray)%nat ->
  nth_error dataArray (length dataArray - 1)
  = Some (nth (length dataArray - 1) dataArray d).
Proof.
  intros H. apply nth_error_nth'. lia.
Qed.

Lemma iterate_seed (i : nat) (st : Opt.state F) :
  nonempty_blocks dataArray ->
  (i < length dataArray)%nat ->
  length (Opt.reductionsArray st) = length dataArray ->
  exists st',
    iterate budget this dataArray i i (repeat 0%Z (length dataArray)) st = Next st'
    /\ Opt.i st' = S i
    /\ Opt.tNumsArray st' = repeat 0%Z (length dataArray)
    /\ length (Opt.reductionsArray st') = length dataArray.
Proof.
  intros N Hi Hred.
  unfold iterate.
  destruct (nth_error dataArray i) as [block|] eqn:Hblock;
    [|apply nth_error_None in Hblock; lia].
  cbv zeta. rewrite nth_zeros.
  pose proof (nonempty_length _ N Hblock) as Hlen.
  destruct (item_at_inside block (k := (0 + 1 - 1)%Z)) as [term Hterm]; [lia|].
  rewrite Hterm. cbv iota. rewrite Hterm.
  replace (length dataArray <=? i)%nat with false
    by (symmetry; apply Nat.leb_gt; lia).
  replace (length dataArray <? i)%nat with false
    by (symmetry; apply Nat.ltb_ge; lia).
  cbv iota. rewrite andb_false_l, nth_zeros.
  pose proof (nonempty_length _ N (last_block [] ltac:(lia))) as Hlast.
  destruct (Z.eqb_spec 0 (Z.of_nat (length (nth (length dataArray - 1) dataArray []))));
    [lia|].
  eexists. split; [reflexivity|]. simpl.
  rewrite length_assign. auto.
Qed.

Lemma step_invariant (st : Opt.state F) :
  nonempty_blocks dataArray ->
  loop_invariant dataArray st ->
  match step_with budget this dataArray st with
  | Next st' => loop_invariant dataArray st'
  | Done (Return st') => in_range dataArray (Opt.tNumsArray st')
  | Done (Throw e) => dataArray = []
  | Done OutOfFuel => False
  end.
Proof.
  intros N [Hred [[Hi Hzeros]|[Hi [Hitem Hb]]]]; unfold step_with; cbv zeta.
  - destruct (Nat.eq_dec (Opt.i st) (length dataArray)) as [E|D].
    + rewrite (proj2 (Nat.eqb_eq _ _) E). rewrite Hzeros.
      destruct dataArray as [|block rest] eqn:Hdata; [exact eq_refl|].
      rewrite <- Hdata in *.
      assert (HT : (0 < length dataArray)%nat) by (rewrite Hdata; simpl; lia).
      pose proof (iterate_greedy st N (Nat.eq_le_incl _ _ (eq_sym E)) HT
                    (below_incr (below_zeros N) HT) Hred) as G.
      destruct (iterate _ _ _ _ _ _ _) as [st'|[st'| |]]; try contradiction.
      * destruct G as [Gi [Gitem [Gb Gred]]].
        split; [exact Gred|]. right. split; [lia|]. split; assumption.
      * destruct G as [next Gb]. exact (bounded_in_range Gb).
    + rewrite (proj2 (Nat.eqb_neq _ _) D).
      assert (Hlt : (Opt.i st < length dataArray)%nat) by lia.
      rewrite (proj2 (Nat.ltb_lt _ _) Hlt), (Nat.mod_small _ _ Hlt).
      rewrite Hzeros.
      destruct (iterate_seed st N Hlt Hred) as [st' [-> [Gi [Gz Gred]]]].
      split; [exact Gred|]. left. split; [lia|exact Gz].
  - rewrite (proj2 (Nat.eqb_neq _ _) (not_eq_sym (Nat.lt_neq _ _ Hi))).
    replace (Opt.i st <? length dataArray)%nat with false
      by (symmetry; apply Nat.ltb_ge; lia).
    pose proof (iterate_greedy st N (Nat.lt_le_incl _ _ Hi) Hitem Hb Hred) as G.
    destruct (iterate _ _ _ _ _ _ _) as [st'|[st'| |]]; try contradiction.
    + destruct G as [Gi [Gitem [Gb Gred]]].
      split; [exact Gred|]. right. split; [lia|]. split; assumption.
    + destruct G as [next Gb]. exact (bounded_in_range Gb).
Qed.

Lemma loop_invariant_start (maximumError : F) :
  loop_invariant dataArray (start dataArray maximumError).
Proof.
  split; simpl; [apply repeat_length|]. left. split; [lia|reflexivity].
Qed.

Lemma loop_in_range (fuel : nat) (st : Opt.state F) :
  nonempty_blocks dataArray ->
  loop_invariant dataArray st ->
  match loop_with budget this dataArray fuel st with
  | Return st' => in_range dataArray (Opt.tNumsArray st')
  | Throw e => dataArray = []
  | OutOfFuel => True
  end.
Proof.
  intros N. revert st.
  induction fuel as [|fuel IH]; intros st Hinv; simpl; [exact I|].
  pose proof (step_invariant N Hinv) as S.
  destruct (step_with budget this dataArray st) as [st'|[st'|e|]];
    [apply IH; exact S|exact S|exact S|contradiction].
Qed.

End Invariant.

(** *** The budget adjustment is dead *)

Lemma iterate_budget (i item : nat) (tNumsArray : list Z) (st : Opt.state F) :
  match iterate adjust this dataArray i item tNumsArray st,
        iterate keep this dataArray i item tNumsArray st with
  | Next a, Next b => a = b
  | Done o, Done o' => plan_of o = plan_of o'
  | _, _ => False
  end.
Proof.
  unfold iterate.
  destruct (nth_error dataArray item) as [block|]; [|exact eq_refl].
  cbv zeta.
  case_item_at; cbv iota; try case_item_at; try exact eq_refl.
  all: match goal with
       | |- context [andb ?a ?b] => destruct (andb a b)
       end.
  all: try (destruct (estimateMaxError _ _ _); exact eq_refl).
  all: match goal with
       | |- context [Z.eqb ?a ?b] => destruct (Z.eqb a b)
       end; exact eq_refl.
Qed.

Lemma loop_budget (fuel : nat) (st : Opt.state F) :
  plan_of (loop_with adjust this dataArray fuel st)
  = plan_of (loop_with keep this dataArray fuel st).
Proof.
  revert st; induction fuel as [|fuel IH]; intros st; simpl; [reflexivity|].
  unfold step_with.
  pose proof (iterate_budget (Opt.i st)
    (if (Opt.i st =? length dataArray)%nat then 0%nat
     else if (Opt.i st <? length dataArray)%nat
          then (Opt.i st mod length dataArray)%nat else Opt.item st)
    (if (Opt.i st =? length dataArray)%nat
     then incr (Opt.tNumsArray st) 0 else Opt.tNumsArray st) st) as H.
  cbv zeta.
  destruct (iterate adjust _ _ _ _ _ _) as [a|o], (iterate keep _ _ _ _ _ _) as [b|o'];
    try contradiction.
  - subst b. apply IH.
  - exact H.
Qed.

(** C9. The assignment [maximumError -= (trueMaxError - maximumError) * 4 / 3]
    made on leaving the loop does not show in the result: for every model,
    time and budget, [makeTruncationNums] and the same function without that
    assignment do the same (return the same array, throw the same error, or
    both keep running). *)
Theorem adjustment_unobservable (fuel : nat) (maximumError : F) :
  makeTruncationNums fuel this dataArray maximumError
  = makeTruncationNums_unadjusted fuel this dataArray maximumError.
Proof.
  unfold makeTruncationNums, makeTruncationNums_unadjusted, run, run_with.
  destruct (maximumError <? ofZ 0); [reflexivity|].
  apply loop_budget.
Qed.

(** *** How the loop is left *)

Lemma iterate_exit (i item : nat) (tNumsArray : list Z) (st st' : Opt.state F) :
  iterate adjust this dataArray i item tNumsArray st = Done (Return st') ->
  Opt.i st' = i
  /\ (((length dataArray <? i)%nat
       && (Math_abs (Opt.accuracysSum st') <=? Opt.maximumError st) = true)
      \/ last_block_full dataArray (Opt.tNumsArray st')).
Proof.
  unfold iterate.
  destruct (nth_error dataArray item) as [block|]; [|discriminate].
  cbv zeta.
  case_item_at; cbv iota; try case_item_at; try discriminate.
  all: match goal with
       | |- context [andb ?a ?b] => destruct (andb a b) eqn:Hpass
       end.
  all: try (destruct (estimateMaxError _ _ _); simpl; intros E;
            inversion E; subst; clear E; simpl; auto).
  all: match goal with
       | |- context [Z.eqb ?a ?b] => destruct (Z.eqb_spec a b)
       end; intros E; inversion E; subst; clear E; simpl; auto.
Qed.

Lemma iterate_next (i item : nat) (tNumsArray : list Z) (st st' : Opt.state F) :
  iterate adjust this dataArray i item tNumsArray st = Next st' ->
  Opt.maximumError st' = Opt.maximumError st.
Proof.
  unfold iterate.
  destruct (nth_error dataArray item) as [block|]; [|discriminate].
  cbv zeta.
  case_item_at; cbv iota; try case_item_at; try discriminate.
  all: repeat case_if; try discriminate.
  all: intros E; inversion E; reflexivity.
Qed.

Lemma loop_exit (fuel : nat) (st st' : Opt.state F) :
  loop this dataArray fuel st = Return st' ->
  within_budget dataArray (Opt.maximumError st) st'
  \/ last_block_full dataArray (Opt.tNumsArray st').
Proof.
  unfold loop.
  revert st; induction fuel as [|fuel IH]; intros st; simpl; [discriminate|].
  unfold step_with; cbv zeta.
  destruct (iterate adjust _ _ _ _ _ _) as [next|o] eqn:E.
  - intros H. rewrite <- (iterate_next _ _ _ _ E). apply IH, H.
  - intros ->. apply iterate_exit in E. destruct E as [Ei [E|E]]; [left|right; exact E].
    apply andb_prop in E. destruct E as [Hi Hsum].
    split; [|exact Hsum].
    rewrite Ei. apply Nat.ltb_lt in Hi.
    destruct (Opt.i st =? length dataArray)%nat; exact Hi.
Qed.

(** C10. For every model whose blocks are all non-empty and every budget,
    an array returned by [makeTruncationNums] has one entry per block, each
    at least 0 and at most the number of terms of its block.  Moreover no
    error is thrown but for a negative budget or a model with no block. *)
Theorem makeTruncationNums_in_range (fuel : nat) (maximumError : F) :
  nonempty_blocks dataArray ->
  match makeTruncationNums fuel this dataArray maximumError with
  | Return plan => in_range dataArray plan
  | Throw e => (maximumError <? ofZ 0) = true \/ dataArray = []
  | OutOfFuel => True
  end.
Proof.
  intros N. unfold makeTruncationNums, run, run_with.
  destruct (maximumError <? ofZ 0); simpl; [left; reflexivity|].
  pose proof (loop_in_range adjust fuel N (loop_invariant_start maximumError)) as H.
  destruct (loop_with adjust this dataArray fuel _); simpl; auto.
Qed.

End Optimizer.

(** ** What the optimizer compares with the budget *)

Section Evaluations.

Context {F : Type} {NF : Number F}.
Context {JDR : Type} {TC : TimeContext F JDR}.

Local Open Scope js_scope.

Variable this : Calculator JDR.
Variable dataArray : SeriesModel F.









End Evaluations.

(** ** Averaging and refinement *)

Section Averaging.

Context {F : Type} {NF : Number F}.
Context {JDR : Type} {TC : TimeContext F JDR}.

Local Open Scope js_scope.

Variable fuel : nat.
Variable dataArray : SeriesModel F.

(** *** The time context after averaging *)

Lemma mean_loop_S (maximumError jd0 t : F) (count i : nat)
    (this : Calculator JDR) (sumsArray : list Z) :
  mean_loop fuel dataArray maximumError jd0 t (S count) i this sumsArray
  = let this1 := set_jdr this (JDateRepository (jd0 + ofZ (Z.of_nat i) * t)) in
    match makeTruncationNums fuel this1 dataArray maximumError with
    | Return tNumsArray =>
        mean_loop fuel dataArray maximumError jd0 t count (S i) this1
          (accumulate sumsArray tNumsArray)
    | Throw e => (this1, Throw e)
    | OutOfFuel => (this1, OutOfFuel)
    end.
Proof. reflexivity. Qed.

Lemma mean_loop_time (maximumError jd0 t : F) (count i : nat)
    (this this' : Calculator JDR) (sumsArray sums : list Z) :
  mean_loop fuel dataArray maximumError jd0 t (S count) i this sumsArray
  = (this', Return sums) ->
  jdr this' = JDateRepository (jd0 + ofZ (Z.of_nat (i + count)) * t).
Proof.
  revert i this sumsArray.
  induction count as [|count IH]; intros i this sumsArray;
    rewrite mean_loop_S; cbv zeta;
    destruct (makeTruncationNums fuel (set_jdr this _) dataArray maximumError);
    try discriminate.
  - simpl. intros H; inversion H. rewrite Nat.add_0_r. reflexivity.
  - intros H. apply IH in H. rewrite H.
    replace (S i + count)%nat with (i + S count)%nat by lia. reflexivity.
Qed.

(** Whenever [makeMeanTruncationNums] returns, the calculator is left at the
    last of the 100 sampled dates, whatever its date was before the call. *)
Lemma makeMeanTruncationNums_time (this this' : Calculator JDR)
    (maximumError : F) (plan : list Z) :
  makeMeanTruncationNums fuel dataArray this maximumError = (this', Return plan) ->
  jdr this'
  = JDateRepository
      (ofZ 260732 + ofZ 99 * ((ofZ 3912458 - ofZ 260732) / ofZ 100)).
Proof.
  unfold makeMeanTruncationNums.
  destruct (mean_loop _ _ _ _ _ _ _ _ _) as [this1 [sums| |]] eqn:E;
    simpl; intros H; inversion H; subst.
  apply mean_loop_time in E. exact E.
Qed.

(** *** The refinement loop *)

Local Abbreviation result_of r :=
  (let (this', final) := r in
   (this', st <- final ;; Return (Safe.tNumsArray st))).

Local Abbreviation some_of r :=
  (let (this', final) := r in
   (this', plan <- final ;; Return (Some plan))).




End Averaging.

(** ** calc: an entry 0 and an entry that is not given *)

Section Evaluator.

Context {F : Type} {NF : Number F} {TF : Trig F}.

Local Open Scope js_scope.


End Evaluator.

(** ** The exact reading *)

Section OnReals.

Import Reals Lra.
Import Exact.

Local Open Scope R_scope.

Ltac exact_ops :=
  cbn [nadd nsub nmul ndiv ofZ Math_sqrt Math_abs Math_cos number trig] in *.


(** *** The estimate and a growing entry *)

Lemma fold_share (j : JDate) (i : nat) (n : Z) (block : Block R) (acc : R) :
  fold_left nadd (share j i n block) acc = acc + total (share j i n block).
Proof.
  unfold share, total.
  destruct (n =? 0)%Z; [simpl; exact_ops; ring|].
  destruct (item_at block (n - 1)); simpl; exact_ops; ring.
Qed.

(** The estimate follows the blocks' shares: when no block's share is larger
    under one array than under another, neither is the accumulated sum. *)
Lemma estimate_loop_monotone (j : JDate) (plan plan' : Plan) :
  forall (blocks : list (Block R)) (i : nat) (acc acc' e e' : R),
    acc' <= acc ->
    (forall idx block, nth_error blocks idx = Some block ->
       total (share j (i + idx) (truncation plan' (i + idx) block) block)
       <= total (share j (i + idx) (truncation plan (i + idx) block) block)) ->
    estimate_loop j blocks plan' i acc' = Return e' ->
    estimate_loop j blocks plan i acc = Return e ->
    e' <= e.
Proof.
  induction blocks as [|block rest IH]; intros i acc acc' e e' Hacc Hshare H' H.
  - simpl in *. inversion H; inversion H'; subst; assumption.
  - apply estimate_loop_cons in H, H'. rewrite fold_share in H, H'.
    eapply (IH (S i)); [ | | exact H' | exact H].
    + specialize (Hshare 0%nat block eq_refl).
      rewrite Nat.add_0_r in Hshare. lra.
    + intros idx blk Hidx. specialize (Hshare (S idx) blk Hidx).
      replace (S i + idx)%nat with (i + S idx)%nat by lia. exact Hshare.
Qed.

(** C5 as stated fails.  For one block of the terms 10 and 9, in decreasing
    order, keeping both terms gives the larger estimate: [2 * sqrt(2) * 9],
    about 25.5, against [2 * sqrt(1) * 10 = 20] for the first term alone. *)
Lemma estimate_may_grow :
  exists e e',
    estimateMaxError epoch [[term 10; term 9]] (Some [Some 1%Z]) = Return e
    /\ estimateMaxError epoch [[term 10; term 9]] (Some [Some 2%Z]) = Return e'
    /\ e < e'.
Proof.
  eexists. eexists. split; [reflexivity|]. split; [reflexivity|].
  unfold truncation. simpl. exact_ops.
  assert (H1 : sqrt 1 = 1) by apply sqrt_1.
  assert (H2 : 10 / 9 < sqrt 2).
  { rewrite <- (sqrt_square (10 / 9)) by lra. apply sqrt_lt_1_alt. lra. }
  change (Z.min 1 2) with 1%Z. change (Z.min 2 2) with 2%Z.
  rewrite H1. lra.
Qed.

(** C5, as the code has it, in exact arithmetic.  Raising one entry from [n]
    to [n'], both within the number of the block's terms, does not raise the
    estimate provided the share of that block, [sqrt(n) * A * t^i] with [A]
    the amplitude of the term of index [n - 1] (nothing for [n = 0]), does
    not grow from [n] to [n']. *)
Theorem estimate_monotone (this : Calculator JDate) (dataArray : SeriesModel R)
    (plan : list (option Z)) (k : nat) (n n' : Z) (block : Block R) (e e' : R) :
  nth_error dataArray k = Some block ->
  nth_error plan k = Some (Some n) ->
  (n <= n' <= Z.of_nat (length block))%Z ->
  total (share (jdr this) k n' block) <= total (share (jdr this) k n block) ->
  estimateMaxError this dataArray (Some plan) = Return e ->
  estimateMaxError this dataArray (Some (assign plan k (Some n'))) = Return e' ->
  e' <= e.
Proof.
  intros Hblock Hentry Hn Hshare. unfold estimateMaxError. intros H H'.
  destruct (estimate_loop (jdr this) dataArray (Some plan) 0 (ofZ 0))
    as [a| |] eqn:E; try discriminate.
  destruct (estimate_loop (jdr this) dataArray (Some (assign plan k (Some n')))
              0 (ofZ 0)) as [a'| |] eqn:E'; try discriminate.
  simpl in H, H'. injection H as <-. injection H' as <-. exact_ops.
  assert (a' <= a); [|lra].
  eapply estimate_loop_monotone; [apply Rle_refl| |exact E'|exact E].
  intros idx blk Hidx. simpl Nat.add.
  destruct (Nat.eq_dec k idx) as [<-|D].
  - assert (blk = block) by congruence; subst blk.
    assert (Hk : (k < length plan)%nat) by (apply nth_error_Some; congruence).
    unfold truncation, entry.
    rewrite (nth_error_assign_same _ _ Hk), Hentry.
    rewrite !Z.min_l by lia. exact Hshare.
  - unfold truncation, entry.
    rewrite (nth_error_assign_other _ _ D). apply Rle_refl.
Qed.

(** C5's condition met: for one block of the terms 9, 4, 1, 1, going from
    one term kept to all four brings the share down from [sqrt(1) * 9] to
    [sqrt(4) * 1], and the estimate with it. *)
Lemma estimate_monotone_witness :
  exists e e',
    estimateMaxError epoch [[term 9; term 4; term 1; term 1]] (Some [Some 1%Z])
    = Return e
    /\ estimateMaxError epoch [[term 9; term 4; term 1; term 1]]
         (Some [Some 4%Z]) = Return e'
    /\ e' <= e.
Proof.
  eexists. eexists. split; [reflexivity|]. split; [reflexivity|].
  apply (estimate_monotone epoch [[term 9; term 4; term 1; term 1]]
           [Some 1%Z] 0 (n := 1%Z) (n' := 4%Z)
           (block := [term 9; term 4; term 1; term 1]));
    try reflexivity.
  - simpl. lia.
  - unfold total, share. simpl. exact_ops.
    replace 4 with (2 * 2) by lra.
    rewrite sqrt_square by lra. rewrite sqrt_1. lra.
Defined.


End OnReals.

(** ** The optimizer's running total in exact arithmetic *)

Section RunningTotal.

(** The entries' bounds of the greedy pass, under a name that the real
    numbers' library leaves free. *)
Local Abbreviation entries_bounded := bounded (only parsing).

Import Reals Lra.
Import Exact.

Context {JDR : Type} {TC : TimeContext R JDR}.

Local Open Scope R_scope.

Variable this : Calculator JDR.
Variable dataArray : SeriesModel R.





Lemma leb_le (x y : R) : leb x y = true -> x <= y.
Proof.
  unfold leb. destruct (Rle_dec x y); [auto|discriminate].
Qed.






End RunningTotal.

(** ** The optimizer on doubles *)

Section OnDoubles.

Import Floats.
Import Double Examples.

Lemma nonempty_scenario : nonempty_blocks scenario.
Proof. repeat constructor; discriminate. Qed.

Lemma well_formed_one : well_formed (given [1%Z]).
Proof.
  intros [|[|i]] n; simpl; intros H; inversion H; lia.
Qed.

(** The formula of C4 at the spec's scenario, one term kept of the block of
    amplitudes 10, 3, 1 at [t = 0]: the code returns the formula's value, and
    that value is [2 * sqrt(1) * 10 * t^0 = 20]. *)
Lemma estimateMaxError_formula_witness :
  estimateMaxError J2000 scenario (given [1%Z])
  = Return (estimate_spec J2000 scenario (given [1%Z]))
  /\ estimate_spec J2000 scenario (given [1%Z]) = 20%float
  /\ retained (given [1%Z]) 0 [term 10; term 3; term 1] = 1%Z.
Proof.
  split; [|split].
  - apply (estimateMaxError_formula J2000 scenario well_formed_one).
  - vm_compute. reflexivity.
  - reflexivity.
Defined.

(** The effective count on the same block: an entry above the number of terms
    is capped to it, a missing entry and a missing array count every term, and
    the entry 0 leaves the block out. *)
Lemma estimateMaxError_counts :
  estimateMaxError J2000 scenario (given [2%Z]) = Return (2 * (sqrt 2 * 3))%float
  /\ estimateMaxError J2000 scenario (given [7%Z]) = Return (2 * sqrt 3)%float
  /\ estimateMaxError J2000 scenario (Some []) = Return (2 * sqrt 3)%float
  /\ estimateMaxError J2000 scenario None = Return (2 * sqrt 3)%float
  /\ estimateMaxError J2000 scenario (given [0%Z]) = Return 0%float.
Proof.
  repeat split; vm_compute; reflexivity.
Qed.


(** The bounds of C10 at the spec's scenario. *)
Lemma makeTruncationNums_in_range_witness : in_range scenario [3%Z].
Proof.
  exact (makeTruncationNums_in_range J2000 3 5%float nonempty_scenario).
Defined.

(** C3 as stated fails: with the budget 25 the optimizer returns [[3]], not
    [[1]].  The budget is first tested in the third iteration, when all three
    terms are counted. *)
Lemma scenario_budget_25 :
  makeTruncationNums 3 J2000 scenario 25%float = Return [3%Z].
Proof. vm_compute. reflexivity. Qed.

(** C3, as the code has it.  For the block of the three terms of amplitudes
    10, 3 and 1 at [t = 0], [makeTruncationNums] returns [[3]] for the budget
    25 and for the budget 5, after three iterations. *)
Theorem scenario_plans (k : nat) :
  makeTruncationNums (3 + k) J2000 scenario 25%float = Return [3%Z]
  /\ makeTruncationNums (3 + k) J2000 scenario 5%float = Return [3%Z].
Proof.
  split; vm_compute; reflexivity.
Qed.

(** *** A run that never ends *)

End OnDoubles.

Section Divergence.

Import Floats.
Import Double Examples.

Context {JDR : Type} {TC : TimeContext float JDR}.

Variable this : Calculator JDR.

(** The calculator's time is [t = 0]: [t^0 = 1] and [t^1 = 0], whatever the
    date type maps to it. *)
Hypothesis unit_power : JDECP (jdr this) 0 = 1%float.
Hypothesis zero_time : JDECP (jdr this) 1 = 0%float.

Ltac at_zero_time :=
  unfold step, step_with, iterate; cbv - [JDECP jdr];
  rewrite ?unit_power, ?zero_time; vm_compute; reflexivity.

Lemma start_caught :
  step this two_blocks (start two_blocks 0%float)
  = Next (Opt.mkState 1 0 [0%Z; 0%Z] [10%float; 0%float] [10%float; 0%float]
            10%float 0%float)
  /\ step this two_blocks
       (Opt.mkState 1 0 [0%Z; 0%Z] [10%float; 0%float] [10%float; 0%float]
          10%float 0%float)
     = Next (Opt.mkState 2 0 [0%Z; 0%Z] [10%float; 0%float] [10%float; 0%float]
               10%float 0%float)
  /\ step this two_blocks
       (Opt.mkState 2 0 [0%Z; 0%Z] [10%float; 0%float] [10%float; 0%float]
          10%float 0%float)
     = Next (caught 0).
Proof.
  repeat split; at_zero_time.
Qed.

Lemma caught_step (k : nat) :
  step this two_blocks (caught k) = Next (caught (S k)).
Proof. at_zero_time. Qed.

Lemma caught_forever (fuel k : nat) :
  loop this two_blocks fuel (caught k) = OutOfFuel.
Proof.
  revert k. induction fuel as [|fuel IH]; intros k; [reflexivity|].
  change (loop this two_blocks (S fuel) (caught k))
    with (match step this two_blocks (caught k) with
          | Next st' => loop this two_blocks fuel st'
          | Done o => o
          end).
  rewrite caught_step. apply IH.
Qed.

(** C7 fails on the code.  For a calculator whose time is [t = 0] (that is,
    [t^0 = 1] and [t^1 = 0], however its date type computes the powers), two
    blocks of one and of two terms and the budget 0, [makeTruncationNums] does
    not return, whatever the number of iterations allowed. *)
Theorem makeTruncationNums_diverges (fuel : nat) :
  makeTruncationNums fuel this two_blocks 0%float = OutOfFuel.
Proof.
  destruct start_caught as [S0 [S1 S2]].
  assert (L : loop this two_blocks fuel (start two_blocks 0%float) = OutOfFuel).
  { destruct fuel as [|[|[|fuel]]].
    - reflexivity.
    - change (loop this two_blocks 1 (start two_blocks 0%float))
        with (match step this two_blocks (start two_blocks 0%float) with
              | Next st1 => OutOfFuel
              | Done o => o
              end).
      rewrite S0. reflexivity.
    - change (loop this two_blocks 2 (start two_blocks 0%float))
        with (match step this two_blocks (start two_blocks 0%float) with
              | Next st1 =>
                  match step this two_blocks st1 with
                  | Next st2 => OutOfFuel
                  | Done o => o
                  end
              | Done o => o
              end).
      rewrite S0, S1. reflexivity.
    - change (loop this two_blocks (S (S (S fuel))) (start two_blocks 0%float))
        with (match step this two_blocks (start two_blocks 0%float) with
              | Next st1 =>
                  match step this two_blocks st1 with
                  | Next st2 =>
                      match step this two_blocks st2 with
                      | Next st3 => loop this two_blocks fuel st3
                      | Done o => o
                      end
                  | Done o => o
                  end
              | Done o => o
              end).
      rewrite S0, S1, S2. apply caught_forever. }
  unfold makeTruncationNums, run, run_with.
  change ((0 <? ofZ 0)%js) with false.
  fold (loop this two_blocks fuel (start two_blocks 0%float)).
  rewrite L. reflexivity.
Qed.

End Divergence.

Section DivergenceAtAnyTime.

Import Floats.
Import Double Examples.

Context {JDR : Type} {TC : TimeContext float JDR}.

Variable this : Calculator JDR.

(** The time is a number whose product with 0 is a zero, of either sign:
    [t] is neither infinite nor NaN. *)
Hypothesis unit_power : JDECP (jdr this) 0 = 1%float.
Hypothesis finite_time :
  (0 * JDECP (jdr this) 1 = 0 \/ 0 * JDECP (jdr this) 1 = -0)%float.

Ltac at_finite_time :=
  unfold step, step_with, iterate; cbv - [JDECP jdr];
  rewrite ?unit_power;
  destruct finite_time as [Hz|Hz]; rewrite ?Hz; vm_compute; reflexivity.

Lemma start_stalled :
  exists z,
    (step this silent_second (start silent_second 0%float)
     = Next (Opt.mkState 1 0 [0%Z; 0%Z] [10%float; 0%float] [10%float; 0%float]
               10%float 0%float)
     /\ step this silent_second
          (Opt.mkState 1 0 [0%Z; 0%Z] [10%float; 0%float] [10%float; 0%float]
             10%float 0%float)
        = Next (Opt.mkState 2 0 [0%Z; 0%Z] [10%float; 0%float] [10%float; z]
                  10%float 0%float)
     /\ step this silent_second
          (Opt.mkState 2 0 [0%Z; 0%Z] [10%float; 0%float] [10%float; z]
             10%float 0%float)
        = Next (stalled z 0))
    /\ forall k, step this silent_second (stalled z k) = Next (stalled z (S k)).
Proof.
  exists (0 * JDECP (jdr this) 1)%float.
  split; [split; [|split]|intros k]; at_finite_time.
Qed.

Lemma stalled_forever (z : float) (fuel k : nat) :
  (forall k, step this silent_second (stalled z k) = Next (stalled z (S k))) ->
  loop this silent_second fuel (stalled z k) = OutOfFuel.
Proof.
  intros Hstep. revert k. induction fuel as [|fuel IH]; intros k; [reflexivity|].
  change (loop this silent_second (S fuel) (stalled z k))
    with (match step this silent_second (stalled z k) with
          | Next st' => loop this silent_second fuel st'
          | Done o => o
          end).
  rewrite Hstep. apply IH.
Qed.

(** The run of C7 does not depend on the time being 0: when the terms of the
    second block have the amplitude 0, [makeTruncationNums] with the budget 0
    does not return at any finite time. *)
Lemma makeTruncationNums_diverges_at_any_time (fuel : nat) :
  makeTruncationNums fuel this silent_second 0%float = OutOfFuel.
Proof.
  destruct start_stalled as [z [[S0 [S1 S2]] Hstep]].
  assert (L : loop this silent_second fuel (start silent_second 0%float)
              = OutOfFuel).
  { destruct fuel as [|[|[|fuel]]].
    - reflexivity.
    - change (loop this silent_second 1 (start silent_second 0%float))
        with (match step this silent_second (start silent_second 0%float) with
              | Next st1 => OutOfFuel
              | Done o => o
              end).
      rewrite S0. reflexivity.
    - change (loop this silent_second 2 (start silent_second 0%float))
        with (match step this silent_second (start silent_second 0%float) with
              | Next st1 =>
                  match step this silent_second st1 with
                  | Next st2 => OutOfFuel
                  | Done o => o
                  end
              | Done o => o
              end).
      rewrite S0, S1. reflexivity.
    - change (loop this silent_second (S (S (S fuel)))
                (start silent_second 0%float))
        with (match step this silent_second (start silent_second 0%float) with
              | Next st1 =>
                  match step this silent_second st1 with
                  | Next st2 =>
                      match step this silent_second st2 with
                      | Next st3 => loop this silent_second fuel st3
                      | Done o => o
                      end
                  | Done o => o
                  end
              | Done o => o
              end).
      rewrite S0, S1, S2. apply (stalled_forever fuel 0 Hstep). }
  unfold makeTruncationNums, run, run_with.
  change ((0 <? ofZ 0)%js) with false.
  fold (loop this silent_second fuel (start silent_second 0%float)).
  rewrite L. reflexivity.
Qed.

End DivergenceAtAnyTime.

Section OnDoubles.

Import Floats.
Import Double Examples.

(** That run at the Julian date of the package's documentation, where [t]
    is negative. *)
Lemma silent_second_diverges :
  makeTruncationNums 100 documented silent_second 0%float = OutOfFuel
  /\ (JDEC (jdr documented) <? 0)%float = true.
Proof.
  split; [|vm_compute; reflexivity].
  apply (makeTruncationNums_diverges_at_any_time documented);
    [reflexivity|right; vm_compute; reflexivity].
Qed.

(** The run of C7 for the date type of the examples at the Julian date
    2451545, where [t] is exactly 0, with a hundred iterations allowed. *)
Lemma makeTruncationNums_diverges_witness :
  makeTruncationNums 100 J2000 two_blocks 0%float = OutOfFuel.
Proof.
  apply (makeTruncationNums_diverges J2000); reflexivity.
Defined.

(** *** The calculator's time after averaging *)

(** C6 fails on the code.  A calculator set to the Julian date 2446896 is,
    after [makeMeanTruncationNums] has returned, at the last sampled date
    [260732 + 99 * 36517.26], about the year 5900. *)
Theorem makeMeanTruncationNums_moves_time :
  makeMeanTruncationNums 3 scenario documented 5%float
  = (mkCalculator (mkJDate (260732 + 99 * ((3912458 - 260732) / 100))%float),
     Return [3%Z])
  /\ (JD (jdr documented) =? 2446896)%float = true
  /\ (JD (jdr (fst (makeMeanTruncationNums 3 scenario documented 5%float)))
      =? 2446896)%float = false.
Proof.
  repeat split; vm_compute; reflexivity.
Qed.


End OnDoubles.

(** * Further properties *)

(** ** The evaluator and the estimate on arbitrary arrays *)

Section Clamping.

Context {F : Type} {NF : Number F} {TF : Trig F}.
Context {JDR : Type} {TC : TimeContext F JDR}.

Local Open Scope js_scope.

Lemma truncation_covers (dataArray : SeriesModel F) (tNumsArray : Plan)
    (i : nat) (block : Block F) :
  covers dataArray tNumsArray -> nth_error dataArray i = Some block ->
  truncation tNumsArray i block = truncation (F := F) None i block.
Proof.
  intros C H. unfold truncation at 1.
  destruct (entry tNumsArray i) as [n|] eqn:E; [|reflexivity].
  specialize (C _ _ _ H E). unfold truncation. simpl. lia.
Qed.

Lemma calc_loop_ext (j : JDR) (t1 t2 t3 t4 : F) (p q : Plan) :
  forall (blocks : list (Block F)) (i : nat) (res : F),
    (forall idx block, nth_error blocks idx = Some block ->
       truncation p (i + idx) block = truncation q (i + idx) block) ->
    calc_loop j t1 t2 t3 t4 blocks p i res
    = calc_loop j t1 t2 t3 t4 blocks q i res.
Proof.
  induction blocks as [|block rest IH]; intros i res H; simpl; [reflexivity|].
  pose proof (H 0%nat block eq_refl) as H0. rewrite Nat.add_0_r in H0.
  rewrite H0. apply IH. intros idx blk Hidx.
  replace (S i + idx)%nat with (i + S idx)%nat by lia. apply (H (S idx)), Hidx.
Qed.

Lemma estimate_loop_ext (j : JDR) (p q : Plan) :
  forall (blocks : list (Block F)) (i : nat) (accuracy : F),
    (forall idx block, nth_error blocks idx = Some block ->
       truncation p (i + idx) block = truncation q (i + idx) block) ->
    estimate_loop j blocks p i accuracy = estimate_loop j blocks q i accuracy.
Proof.
  induction blocks as [|block rest IH]; intros i accuracy H; simpl;
    [reflexivity|].
  pose proof (H 0%nat block eq_refl) as H0. rewrite Nat.add_0_r in H0.
  rewrite H0.
  assert (R : forall idx blk, nth_error rest idx = Some blk ->
              truncation p (S i + idx) blk = truncation q (S i + idx) blk).
  { intros idx blk Hidx.
    replace (S i + idx)%nat with (i + S idx)%nat by lia. apply (H (S idx)), Hidx. }
  destruct (truncation q i block =? 0)%Z; [apply IH, R|].
  destruct (item_at block (truncation q i block - 1)); [apply IH, R|reflexivity].
Qed.

(** X1. [calc] evaluates the full series whenever every entry that meets a
    block is either not given or at least the block's number of terms: the
    array may be longer than the model and its entries larger than the
    blocks, the result is that of [calc] with no array at all. *)
Theorem calc_covers (this : Calculator JDR) (dataArray : SeriesModel F)
    (tNumsArray : Plan) :
  covers dataArray tNumsArray ->
  calc this dataArray tNumsArray = calc this dataArray None.
Proof.
  intros C. unfold calc. apply calc_loop_ext.
  intros idx block H. apply (truncation_covers _ C H).
Qed.

(** X2. [estimateMaxError] likewise: with every entry not given or at least
    its block's number of terms, it does what it does with no array at
    all. *)
Theorem estimateMaxError_covers (this : Calculator JDR)
    (dataArray : SeriesModel F) (tNumsArray : Plan) :
  covers dataArray tNumsArray ->
  estimateMaxError this dataArray tNumsArray
  = estimateMaxError this dataArray None.
Proof.
  intros C. unfold estimateMaxError. f_equal. apply estimate_loop_ext.
  intros idx block H. apply (truncation_covers _ C H).
Qed.

Lemma estimate_loop_throws (j : JDR) (tNumsArray : Plan) :
  forall (blocks : list (Block F)) (i : nat) (accuracy : F),
    (exists idx block n,
        nth_error blocks idx = Some block
        /\ entry tNumsArray (i + idx) = Some n /\ (n < 0)%Z) ->
    estimate_loop j blocks tNumsArray i accuracy = Throw TypeError.
Proof.
  induction blocks as [|block rest IH]; intros i accuracy [idx [blk [n [H [E N]]]]].
  - destruct idx; discriminate.
  - simpl.
    assert (Hrest : forall acc, idx <> 0%nat ->
              estimate_loop j rest tNumsArray (S i) acc = Throw TypeError).
    { intros acc D. destruct idx as [|idx]; [congruence|].
      apply IH. exists idx, blk, n. split; [exact H|]. split; [|exact N].
      replace (S i + idx)%nat with (i + S idx)%nat by lia. exact E. }
    destruct idx as [|idx].
    + simpl in H. injection H as <-. rewrite Nat.add_0_r in E.
      unfold truncation. rewrite E.
      destruct (Z.eqb_spec (Z.min n (Z.of_nat (length block))) 0); [lia|].
      rewrite item_at_outside by lia. reflexivity.
    + destruct (truncation tNumsArray i block =? 0)%Z;
        [apply Hrest; discriminate|].
      destruct (item_at block (truncation tNumsArray i block - 1));
        [apply Hrest; discriminate|reflexivity].
Qed.

Lemma estimate_loop_returns (j : JDR) (tNumsArray : Plan) :
  forall (blocks : list (Block F)) (i : nat) (accuracy : F),
    (forall idx block n,
        nth_error blocks idx = Some block ->
        entry tNumsArray (i + idx) = Some n -> (0 <= n)%Z) ->
    exists e, estimate_loop j blocks tNumsArray i accuracy = Return e.
Proof.
  induction blocks as [|block rest IH]; intros i accuracy H; simpl; [eauto|].
  assert (R : forall idx blk n, nth_error rest idx = Some blk ->
              entry tNumsArray (S i + idx) = Some n -> (0 <= n)%Z).
  { intros idx blk n Hidx.
    replace (S i + idx)%nat with (i + S idx)%nat by lia.
    apply (H (S idx) blk n Hidx). }
  destruct (Z.eqb_spec (truncation tNumsArray i block) 0); [apply IH, R|].
  assert (T : (0 <= truncation tNumsArray i block <= Z.of_nat (length block))%Z).
  { unfold truncation. destruct (entry tNumsArray i) as [m|] eqn:E; [|lia].
    specialize (H 0%nat block m eq_refl). rewrite Nat.add_0_r in H.
    specialize (H E). lia. }
  destruct (item_at_inside block (k := (truncation tNumsArray i block - 1)%Z))
    as [term ->]; [lia|].
  apply IH, R.
Qed.

(** X3. [estimateMaxError] throws exactly when an entry that meets a block
    is negative, and the error is then a TypeError (the term of index
    [n - 1] does not exist); on any other array it returns a number.  [calc]
    by contrast never throws: its loop over a negative count does not run. *)
Theorem estimateMaxError_throws (this : Calculator JDR)
    (dataArray : SeriesModel F) (tNumsArray : Plan) :
  (negative_entry dataArray tNumsArray ->
   estimateMaxError this dataArray tNumsArray = Throw TypeError)
  /\ (~ negative_entry dataArray tNumsArray ->
      exists e, estimateMaxError this dataArray tNumsArray = Return e).
Proof.
  unfold estimateMaxError. split.
  - intros N. rewrite estimate_loop_throws; [reflexivity|exact N].
  - intros N.
    destruct (estimate_loop_returns (jdr this) tNumsArray dataArray 0 (ofZ 0))
      as [e ->]; [|simpl; eauto].
    intros idx block n H E.
    destruct (Z.lt_ge_cases n 0) as [Neg|]; [|assumption].
    exfalso. apply N. exists idx, block, n. auto.
Qed.

End Clamping.

(** ** More on the optimizer *)

Section SingleBlock.

Context {F : Type} {NF : Number F}.
Context {JDR : Type} {TC : TimeContext F JDR}.

Local Open Scope js_scope.

Variable budget : F -> F -> F.
Variable this : Calculator JDR.
Variable block : Block F.

Lemma scan_single (reductions : list F) (maxReduction : F) :
  length reductions = 1%nat -> scan reductions 0 maxReduction 0 = 0%nat.
Proof.
  intros L. pose proof (scan_inside reductions maxReduction). lia.
Qed.

Lemma well_formed_single (n : Z) : (0 <= n)%Z -> well_formed (given [n]).
Proof.
  intros H [|[|i]] m; simpl; intros E; inversion E; subst; exact H.
Qed.

Lemma iterate_single (i : nat) (n : Z) (st : Opt.state F) :
  block <> [] -> (1 <= i)%nat ->
  (0 <= n <= Z.of_nat (length block))%Z ->
  length (Opt.reductionsArray st) = 1%nat ->
  match iterate budget this [block] i 0 [n] st with
  | Next st' =>
      Opt.i st' = S i /\ Opt.item st' = 0%nat
      /\ Opt.tNumsArray st' = [(n + 1)%Z]
      /\ (n + 1 < Z.of_nat (length block))%Z
      /\ length (Opt.reductionsArray st') = 1%nat
  | Done (Return st') =>
      Opt.tNumsArray st' = [Z.min (n + 1) (Z.of_nat (length block))]
      /\ ((1 < i)%nat
          \/ Z.min (n + 1) (Z.of_nat (length block)) = Z.of_nat (length block))
  | Done _ => False
  end.
Proof.
  intros Hne Hi Hn Hred.
  assert (Hlen : (0 < Z.of_nat (length block))%Z)
    by (destruct block; [congruence|simpl; lia]).
  unfold iterate. cbn [nth_error nth length]. cbv zeta.
  assert (Hstep :
    exists term m,
      item_at block
        ((if match item_at block (n + 1 - 1) with
             | Some _ => false
             | None => true
             end
          then n + 1 - 1 else n + 1) - 1)%Z = Some term
      /\ (if match item_at block (n + 1 - 1)%Z with
             | Some _ => false
             | None => true
             end
          then decr [n] 0 else [n]) = [m]
      /\ (m + 1 = Z.min (n + 1) (Z.of_nat (length block)))%Z).
  { destruct (Z.eq_dec n (Z.of_nat (length block))) as [Hfull|Hless].
    - rewrite (item_at_outside block (k := (n + 1 - 1)%Z)) by lia.
      destruct (item_at_inside block (k := (n + 1 - 1 - 1)%Z))
        as [term Hterm]; [lia|].
      exists term, (n - 1)%Z. split; [exact Hterm|]. split; [reflexivity|lia].
    - destruct (item_at_inside block (k := (n + 1 - 1)%Z))
        as [term Hterm]; [lia|].
      rewrite Hterm. exists term, n. split; [exact Hterm|].
      split; [reflexivity|lia]. }
  destruct Hstep as [term [m [Hterm [Hm Hmin]]]]. rewrite Hterm, Hm.
  replace (1 <=? i)%nat with true by (symmetry; apply Nat.leb_le; exact Hi).
  cbv iota.
  rewrite scan_single
    by (rewrite length_assign;
        destruct (match item_at _ _ with Some _ => false | None => true end);
        rewrite ?length_assign; exact Hred).
  unfold incr. cbn [nth assign Nat.sub length].
  match goal with
  | |- context [andb ?a ?b] => destruct (andb a b) eqn:Hpass
  end.
  - assert (W : well_formed (given [(m + 1)%Z])) by (apply well_formed_single; lia).
    destruct (estimateMaxError_returns this [block] W) as [trueMaxError ->].
    simpl. split; [f_equal; exact Hmin|].
    left. apply andb_prop in Hpass. destruct Hpass as [Hlt _].
    apply Nat.ltb_lt in Hlt. exact Hlt.
  - destruct (Z.eqb_spec (m + 1) (Z.of_nat (length block))) as [E|D]; simpl.
    + split; [f_equal; exact Hmin|]. right. lia.
    + assert (m = n) by lia. subst m.
      repeat split; try reflexivity; try lia.
      rewrite length_assign.
      destruct (match item_at _ _ with Some _ => false | None => true end);
        rewrite ?length_assign; exact Hred.
Qed.

End SingleBlock.

Section SingleBlockRun.

Context {F : Type} {NF : Number F}.
Context {JDR : Type} {TC : TimeContext F JDR}.

Local Open Scope js_scope.

Variable this : Calculator JDR.
Variable block : Block F.

Lemma loop_S (dataArray : SeriesModel F) (fuel : nat) (st : Opt.state F) :
  loop this dataArray (S fuel) st
  = match step this dataArray st with
    | Next st' => loop this dataArray fuel st'
    | Done o => o
    end.
Proof. reflexivity. Qed.


Lemma single_greedy (fuel i : nat) (st : Opt.state F) :
  block <> [] ->
  Opt.i st = i -> (2 <= i)%nat -> Opt.item st = 0%nat ->
  Opt.tNumsArray st = [Z.of_nat i] ->
  (i < length block)%nat ->
  length (Opt.reductionsArray st) = 1%nat ->
  (length block - i <= fuel)%nat ->
  exists st' n,
    loop this [block] fuel st = Return st'
    /\ Opt.tNumsArray st' = [n]
    /\ (Z.of_nat i + 1 <= n <= Z.of_nat (length block))%Z.
Proof.
  intros Hne. revert i st.
  induction fuel as [|fuel IH]; intros i st Hi H2 Hitem Hn Hlt Hred Hfuel;
    [lia|].
  rewrite loop_S. unfold step, step_with. cbv zeta.
  rewrite Hi, Hitem, Hn. cbn [length].
  replace (i <? 1)%nat with false by (symmetry; apply Nat.ltb_ge; lia).
  replace (i =? 1)%nat with false by (symmetry; apply Nat.eqb_neq; lia).
  pose proof (iterate_single adjust this st (i := i) (n := Z.of_nat i)
                Hne ltac:(lia) ltac:(lia) Hred) as S.
  destruct (iterate adjust this [block] i 0 [Z.of_nat i] st)
    as [st'|[st'| |]]; try contradiction.
  - destruct S as [Si [Sitem [Sn [Slt Sred]]]].
    destruct (IH (S i) st') as [st'' [n [L [N R]]]]; try assumption; try lia.
    + rewrite Sn. f_equal. lia.
    + exists st'', n. split; [exact L|]. split; [exact N|lia].
  - destruct S as [Sn _]. exists st', (Z.min (Z.of_nat i + 1) (Z.of_nat (length block))).
    split; [reflexivity|]. split; [exact Sn|lia].
Qed.

Lemma single_block_run (fuel : nat) (maximumError : F) :
  block <> [] ->
  (maximumError <? ofZ 0) = false ->
  (2 <= fuel)%nat -> (length block <= fuel)%nat ->
  exists n,
    makeTruncationNums fuel this [block] maximumError = Return [n]
    /\ (Z.min 3 (Z.of_nat (length block)) <= n <= Z.of_nat (length block))%Z.
Proof.
  intros Hne Hbudget H2 Hfuel.
  assert (N : nonempty_blocks [block]) by (constructor; [exact Hne|constructor]).
  unfold makeTruncationNums, run, run_with. rewrite Hbudget.
  fold (loop this [block] fuel (start [block] maximumError)).
  destruct fuel as [|[|fuel]]; try lia.
  (* the seeding iteration *)
  rewrite loop_S. unfold step at 1, step_with. cbv zeta.
  cbn [start Opt.i Opt.item Opt.tNumsArray length Nat.ltb Nat.leb Nat.eqb
       Nat.modulo Nat.divmod fst snd Nat.sub].
  destruct (iterate_seed this adjust (i := 0) (start [block] maximumError) N
              ltac:(simpl; lia) ltac:(reflexivity))
    as [st1 [E1 [I1 [N1 R1]]]].
  cbn [length start] in E1. rewrite E1.
  (* the iteration i = T *)
  rewrite loop_S. unfold step at 1, step_with. cbv zeta.
  rewrite I1, N1. cbn [length repeat Nat.ltb Nat.leb Nat.eqb].
  unfold incr at 1. cbn [nth assign].
  pose proof (iterate_single adjust this st1 (i := 1) (n := (0 + 1)%Z)
                Hne ltac:(lia)) as S.
  assert (Hlen : (0 < Z.of_nat (length block))%Z)
    by (destruct block; [congruence|simpl; lia]).
  specialize (S ltac:(lia) R1).
  destruct (iterate adjust this [block] 1 0 [(0 + 1)%Z] st1)
    as [st2|[st2| |]]; try contradiction.
  - destruct S as [Si [Sitem [Sn [Slt Sred]]]].
    destruct (single_greedy (fuel := fuel) (i := 2) st2 Hne Si ltac:(lia) Sitem)
      as [st' [n [L [Np R]]]]; try assumption; try lia.
    rewrite L. simpl. exists n. rewrite Np. split; [reflexivity|lia].
  - destruct S as [Sn [Absurd|Full]]; [lia|].
    simpl. rewrite Sn. eexists. split; [reflexivity|]. lia.
Qed.

(** X4. For a model of one non-empty block [makeTruncationNums] always
    returns, after at most [max(2, n)] iterations for a block of [n] terms,
    whatever the budget and the time; the count it returns is at least
    [min(3, n)], so one or two terms are never returned for a block of three
    or more. *)
Theorem makeTruncationNums_single_block (fuel : nat) (maximumError : F) :
  block <> [] ->
  (maximumError <? ofZ 0) = false ->
  (2 <= fuel)%nat -> (length block <= fuel)%nat ->
  exists n,
    makeTruncationNums fuel this [block] maximumError = Return [n]
    /\ (Z.min 3 (Z.of_nat (length block)) <= n <= Z.of_nat (length block))%Z.
Proof.
  apply single_block_run.
Qed.

End SingleBlockRun.

Section OptimizerEdges.

Context {F : Type} {NF : Number F}.
Context {JDR : Type} {TC : TimeContext F JDR}.

Local Open Scope js_scope.

Variable this : Calculator JDR.

(** *** At most one block is used in full *)

Lemma step_bounded (dataArray : SeriesModel F) (st : Opt.state F) :
  nonempty_blocks dataArray ->
  loop_invariant dataArray st ->
  match step this dataArray st with
  | Next st' => loop_invariant dataArray st'
  | Done (Return st') =>
      exists item, bounded dataArray (Opt.tNumsArray st') item
  | Done _ => True
  end.
Proof.
  intros N [Hred [[Hi Hzeros]|[Hi [Hitem Hb]]]]; unfold step, step_with; cbv zeta.
  - destruct (Nat.eq_dec (Opt.i st) (length dataArray)) as [E|D].
    + rewrite (proj2 (Nat.eqb_eq _ _) E). rewrite Hzeros.
      destruct dataArray as [|block rest] eqn:Hdata; [exact I|].
      rewrite <- Hdata in *.
      assert (HT : (0 < length dataArray)%nat) by (rewrite Hdata; simpl; lia).
      pose proof (iterate_greedy this adjust st N
                    (Nat.eq_le_incl _ _ (eq_sym E)) HT
                    (below_incr (below_zeros N) HT) Hred) as G.
      destruct (iterate _ _ _ _ _ _ _) as [st'|[st'| |]]; try exact I.
      * destruct G as [Gi [Gitem [Gb Gred]]].
        split; [exact Gred|]. right. split; [lia|]. split; assumption.
      * exact G.
    + rewrite (proj2 (Nat.eqb_neq _ _) D).
      assert (Hlt : (Opt.i st < length dataArray)%nat) by lia.
      rewrite (proj2 (Nat.ltb_lt _ _) Hlt), (Nat.mod_small _ _ Hlt).
      rewrite Hzeros.
      destruct (iterate_seed this adjust st N Hlt Hred)
        as [st' [-> [Gi [Gz Gred]]]].
      split; [exact Gred|]. left. split; [lia|exact Gz].
  - rewrite (proj2 (Nat.eqb_neq _ _) (not_eq_sym (Nat.lt_neq _ _ Hi))).
    replace (Opt.i st <? length dataArray)%nat with false
      by (symmetry; apply Nat.ltb_ge; lia).
    pose proof (iterate_greedy this adjust st N (Nat.lt_le_incl _ _ Hi)
                  Hitem Hb Hred) as G.
    destruct (iterate _ _ _ _ _ _ _) as [st'|[st'| |]]; try exact I.
    + destruct G as [Gi [Gitem [Gb Gred]]].
      split; [exact Gred|]. right. split; [lia|]. split; assumption.
    + exact G.
Qed.

Lemma loop_bounded (dataArray : SeriesModel F) (fuel : nat)
    (st st' : Opt.state F) :
  nonempty_blocks dataArray ->
  loop_invariant dataArray st ->
  loop this dataArray fuel st = Return st' ->
  exists item, bounded dataArray (Opt.tNumsArray st') item.
Proof.
  intros N. revert st.
  induction fuel as [|fuel IH]; intros st Hinv; [discriminate|].
  rewrite loop_S. pose proof (step_bounded N Hinv) as S.
  destruct (step this dataArray st) as [next|o]; [apply IH, S|].
  intros ->. exact S.
Qed.

(** X5. In an array returned by [makeTruncationNums] for a model of
    non-empty blocks, at most one entry equals the number of its block's
    terms; every other entry is strictly smaller.  With two blocks or more
    the optimizer therefore never returns the full series, however small the
    budget. *)
Theorem makeTruncationNums_one_full (dataArray : SeriesModel F) (fuel : nat)
    (maximumError : F) (plan : list Z) :
  nonempty_blocks dataArray ->
  makeTruncationNums fuel this dataArray maximumError = Return plan ->
  forall k k' block block',
    nth_error dataArray k = Some block ->
    nth_error dataArray k' = Some block' ->
    nth k plan 0%Z = Z.of_nat (length block) ->
    nth k' plan 0%Z = Z.of_nat (length block') ->
    k = k'.
Proof.
  intros N. unfold makeTruncationNums, run, run_with.
  destruct (maximumError <? ofZ 0); [discriminate|].
  fold (loop this dataArray fuel (start dataArray maximumError)).
  destruct (loop this dataArray fuel (start dataArray maximumError))
    as [st| |] eqn:E; simpl; try discriminate.
  intros H. injection H as <-.
  destruct (loop_bounded fuel N (loop_invariant_start dataArray maximumError) E)
    as [item [_ B]].
  intros k k' block block' Hk Hk' Fk Fk'.
  destruct (B k block Hk) as [_ Sk]. destruct (B k' block' Hk') as [_ Sk'].
  destruct (Nat.eq_dec k item) as [->|Dk]; [|specialize (Sk Dk); lia].
  destruct (Nat.eq_dec k' item) as [->|Dk']; [reflexivity|].
  specialize (Sk' Dk'). lia.
Qed.

(** *** Models with an empty block *)

(** X6. A model whose first block is empty makes [makeTruncationNums] throw
    a TypeError in its first iteration, whatever the other blocks and the
    (non-negative) budget: the entry of the block is rolled back to [-1] and
    the term of index [-1] is read. *)
Theorem makeTruncationNums_empty_first (rest : SeriesModel F) (fuel : nat)
    (maximumError : F) :
  (maximumError <? ofZ 0) = false ->
  makeTruncationNums (S fuel) this ([] :: rest) maximumError = Throw TypeError.
Proof.
  intros Hbudget. unfold makeTruncationNums, run, run_with. rewrite Hbudget.
  fold (loop this ([] :: rest) (S fuel) (start ([] :: rest) maximumError)).
  rewrite loop_S. unfold step, step_with. cbv zeta.
  cbn [start Opt.i Opt.item Opt.tNumsArray length Nat.ltb Nat.leb Nat.eqb].
  rewrite Nat.mod_small by lia.
  unfold iterate. cbn [nth_error nth repeat]. reflexivity.
Qed.

(** X7. A model of two or more blocks whose first block is non-empty and
    whose last block is empty makes [makeTruncationNums] return after one
    iteration with every entry 0, whatever the (non-negative) budget: the
    forced exit finds the last entry, 0, equal to the number of the last
    block's terms. *)
Theorem makeTruncationNums_empty_last (first : Block F)
    (middle : SeriesModel F) (fuel : nat) (maximumError : F) :
  first <> [] ->
  (maximumError <? ofZ 0) = false ->
  makeTruncationNums (S fuel) this (first :: middle ++ [[]]) maximumError
  = Return (repeat 0%Z (length (first :: middle ++ [[]]))).
Proof.
  intros Hne Hbudget. unfold makeTruncationNums, run, run_with. rewrite Hbudget.
  set (dataArray := first :: middle ++ [[]]).
  fold (loop this dataArray (S fuel) (start dataArray maximumError)).
  rewrite loop_S. unfold step, step_with. cbv zeta.
  assert (HT : length dataArray = S (S (length middle)))
    by (unfold dataArray; simpl; rewrite length_app; simpl; lia).
  cbn [start Opt.i Opt.item Opt.tNumsArray]. rewrite HT.
  cbn [Nat.ltb Nat.leb Nat.eqb]. rewrite Nat.mod_small by lia.
  unfold iterate. rewrite HT.
  change (nth_error dataArray 0) with (Some first).
  cbv zeta. cbn [nth repeat].
  destruct (item_at_inside first (k := (0 + 1 - 1)%Z)) as [term Hterm].
  { destruct first; [congruence|simpl; lia]. }
  rewrite Hterm. cbv iota. rewrite Hterm.
  cbn [Nat.ltb Nat.leb andb Nat.sub].
  replace (nth (S (length middle)) dataArray []) with (@nil (Term F)).
  - change (0%Z :: 0%Z :: repeat 0%Z (length middle))
      with (repeat 0%Z (S (S (length middle)))).
    rewrite nth_zeros. reflexivity.
  - unfold dataArray. cbn [nth].
    rewrite app_nth2 by lia. rewrite Nat.sub_diag. reflexivity.
Qed.

End OptimizerEdges.

(** ** More on averaging and refinement *)

Section AveragedPlans.

Context {F : Type} {NF : Number F}.
Context {JDR : Type} {TC : TimeContext F JDR}.

Local Open Scope js_scope.

Variable fuel : nat.
Variable dataArray : SeriesModel F.

(** *** The caller's date plays no part *)

(** X8. [makeMeanTruncationNums] and [makeSafeTruncationNums] do not depend
    on the date the calculator is set to when they are called: from any two
    calculators they give the same result and leave the same date behind.
    (The estimate that [makeSafeTruncationNums] compares with the budget is
    thus taken at the last sampled date, not at the caller's.) *)
Theorem averaging_ignores_date (this this' : Calculator JDR) (maximumError : F) :
  makeMeanTruncationNums fuel dataArray this maximumError
  = makeMeanTruncationNums fuel dataArray this' maximumError
  /\ makeSafeTruncationNums fuel dataArray this maximumError
     = makeSafeTruncationNums fuel dataArray this' maximumError.
Proof.
  assert (M : forall e,
             makeMeanTruncationNums fuel dataArray this e
             = makeMeanTruncationNums fuel dataArray this' e).
  { intros e. unfold makeMeanTruncationNums. cbv zeta.
    rewrite !mean_loop_S. reflexivity. }
  split; [apply M|].
  unfold makeSafeTruncationNums.
  change (safe_loop fuel dataArray 5 this (Safe.mkState 0 None maximumError))
    with (match makeMeanTruncationNums fuel dataArray this maximumError with
          | (this, Return tNumsArray) =>
              match estimateMaxError this dataArray (given tNumsArray) with
              | Return trueMaxError =>
                  if trueMaxError >? maximumError then
                    safe_loop fuel dataArray 4 this
                      (Safe.mkState 1 (Some tNumsArray) (maximumError / ofZ 2))
                  else (this, Return (Safe.mkState 0 (Some tNumsArray)
                                        maximumError))
              | Throw e => (this, Throw e)
              | OutOfFuel => (this, OutOfFuel)
              end
          | (this, Throw e) => (this, Throw e)
          | (this, OutOfFuel) => (this, OutOfFuel)
          end).
  rewrite (M maximumError). reflexivity.
Qed.

(** *** The averaged entries stay within their blocks *)

Lemma makeTruncationNums_bounds (this : Calculator JDR) (maximumError : F)
    (plan : list Z) :
  nonempty_blocks dataArray ->
  makeTruncationNums fuel this dataArray maximumError = Return plan ->
  in_range dataArray plan.
Proof.
  intros N. unfold makeTruncationNums, run, run_with.
  destruct (maximumError <? ofZ 0); [discriminate|].
  pose proof (loop_in_range this adjust fuel N
                (loop_invariant_start dataArray maximumError)) as H.
  destruct (loop_with adjust this dataArray fuel _); simpl; try discriminate.
  intros E. injection E as <-. exact H.
Qed.

Lemma accumulate_first (blocks : SeriesModel F) (tNumsArray : list Z) :
  in_range blocks tNumsArray -> summed 1 (accumulate [] tNumsArray) blocks.
Proof.
  unfold in_range, summed.
  induction 1; simpl accumulate; constructor; [lia|assumption].
Qed.

Lemma accumulate_next (c : Z) (blocks : SeriesModel F)
    (sumsArray tNumsArray : list Z) :
  summed c sumsArray blocks -> in_range blocks tNumsArray ->
  summed (c + 1) (accumulate sumsArray tNumsArray) blocks.
Proof.
  unfold in_range, summed. intros S. revert tNumsArray.
  induction S as [|s block sums rest Hs S IH]; intros tNumsArray R;
    inversion R; subst; simpl accumulate; constructor;
    [lia|apply IH; assumption].
Qed.

Lemma mean_loop_summed (maximumError jd0 t : F) (count : nat) :
  nonempty_blocks dataArray ->
  forall (i : nat) (this this' : Calculator JDR) (sumsArray sums : list Z) (c : Z),
    (c = 0%Z /\ sumsArray = []) \/ ((0 < c)%Z /\ summed c sumsArray dataArray) ->
    mean_loop fuel dataArray maximumError jd0 t count i this sumsArray
    = (this', Return sums) ->
    ((c + Z.of_nat count)%Z = 0%Z /\ sums = [])
    \/ ((0 < c + Z.of_nat count)%Z
        /\ summed (c + Z.of_nat count)%Z sums dataArray).
Proof.
  intros N. induction count as [|count IH]; intros i this this' sumsArray sums c Hc.
  - simpl. intros E. injection E as _ <-. rewrite Z.add_0_r. exact Hc.
  - rewrite mean_loop_S. cbv zeta.
    destruct (makeTruncationNums fuel _ dataArray maximumError) as [plan| |] eqn:E;
      try discriminate.
    apply makeTruncationNums_bounds in E; [|exact N].
    intros L. apply (IH _ _ _ _ _ (c + 1)%Z) in L.
    + replace (c + Z.of_nat (S count))%Z with (c + 1 + Z.of_nat count)%Z by lia.
      exact L.
    + right. destruct Hc as [[-> ->]|[Hpos S]].
      * split; [lia|]. apply accumulate_first, E.
      * split; [lia|]. apply accumulate_next; assumption.
Qed.

Lemma ceil_div_range (s len : Z) :
  (0 <= s <= 100 * len)%Z -> (0 <= ceil_div s 100 <= len)%Z.
Proof.
  intros H. unfold ceil_div.
  assert ((- len <= - s / 100)%Z) by (apply Z.div_le_lower_bound; lia).
  assert ((- s / 100 <= 0)%Z)
    by (apply Z.div_le_upper_bound; lia).
  lia.
Qed.

Lemma makeMeanTruncationNums_bounds (this this' : Calculator JDR)
    (maximumError : F) (plan : list Z) :
  nonempty_blocks dataArray ->
  makeMeanTruncationNums fuel dataArray this maximumError = (this', Return plan) ->
  in_range dataArray plan.
Proof.
  intros N. unfold makeMeanTruncationNums. cbv zeta.
  destruct (mean_loop _ _ _ _ _ _ _ _ _) as [this1 [sums| |]] eqn:E;
    simpl; intros H; inversion H; subst.
  apply mean_loop_summed with (c := 0%Z) in E;
    [|exact N|left; split; reflexivity].
  destruct E as [[Absurd _]|[_ S]]; [simpl in Absurd; lia|].
  unfold in_range. clear -S. simpl in S.
  induction S; simpl; constructor; [apply ceil_div_range; assumption|assumption].
Qed.

(** X9. Whenever [makeMeanTruncationNums] returns for a model of non-empty
    blocks, the averaged array has one entry per block, each at least 0 and
    at most the number of its block's terms. *)
Theorem makeMeanTruncationNums_in_range (this this' : Calculator JDR)
    (maximumError : F) (plan : list Z) :
  nonempty_blocks dataArray ->
  makeMeanTruncationNums fuel dataArray this maximumError = (this', Return plan) ->
  in_range dataArray plan.
Proof.
  apply makeMeanTruncationNums_bounds.
Qed.

Lemma safe_loop_settled (count : nat) :
  nonempty_blocks dataArray ->
  forall (this this' : Calculator JDR) (st st' : Safe.state F),
    settled dataArray st ->
    safe_loop fuel dataArray count this st = (this', Return st') ->
    settled dataArray st'.
Proof.
  intros N. induction count as [|count IH]; intros this this' st st' Hst; simpl.
  - intros E. injection E as _ <-. exact Hst.
  - destruct (makeMeanTruncationNums fuel dataArray this (Safe.maximumError st))
      as [this1 [plan| |]] eqn:M; try discriminate.
    apply makeMeanTruncationNums_bounds in M; [|exact N].
    destruct (estimateMaxError this1 dataArray (given plan)); try discriminate.
    destruct (a >? Safe.maximumError st).
    + intros L. apply IH in L; [exact L|]. exists plan. auto.
    + intros E. injection E as _ <-. exists plan. auto.
Qed.

(** X10. Whenever [makeSafeTruncationNums] returns for a model of non-empty
    blocks, it returns an array (never [undefined]) with one entry per block,
    each at least 0 and at most the number of its block's terms. *)
Theorem makeSafeTruncationNums_in_range (this this' : Calculator JDR)
    (maximumError : F) (result : option (list Z)) :
  nonempty_blocks dataArray ->
  makeSafeTruncationNums fuel dataArray this maximumError
  = (this', Return result) ->
  exists plan, result = Some plan /\ in_range dataArray plan.
Proof.
  intros N. unfold makeSafeTruncationNums.
  destruct (safe_loop fuel dataArray 5 this (Safe.mkState 0 None maximumError))
    as [this1 [st| |]] eqn:E; simpl; intros H; inversion H; subst.
  assert (S : settled dataArray st); [|exact S].
  change (safe_loop fuel dataArray 5 this (Safe.mkState 0 None maximumError))
    with (match makeMeanTruncationNums fuel dataArray this maximumError with
          | (this, Return tNumsArray) =>
              match estimateMaxError this dataArray (given tNumsArray) with
              | Return trueMaxError =>
                  if trueMaxError >? maximumError then
                    safe_loop fuel dataArray 4 this
                      (Safe.mkState 1 (Some tNumsArray) (maximumError / ofZ 2))
                  else (this, Return (Safe.mkState 0 (Some tNumsArray)
                                        maximumError))
              | Throw e => (this, Throw e)
              | OutOfFuel => (this, OutOfFuel)
              end
          | (this, Throw e) => (this, Throw e)
          | (this, OutOfFuel) => (this, OutOfFuel)
          end) in E.
  destruct (makeMeanTruncationNums fuel dataArray this maximumError)
    as [this2 [plan| |]] eqn:M; try discriminate.
  apply makeMeanTruncationNums_bounds in M; [|exact N].
  destruct (estimateMaxError this2 dataArray (given plan)); try discriminate.
  destruct (a >? maximumError).
  - apply (safe_loop_settled 4 N) in E; [exact E|]. exists plan. auto.
  - injection E as _ <-. exists plan. auto.
Qed.

End AveragedPlans.

(** ** The facade *)

Section FacadeProperties.

Import String.
Import Moon.

Context {F : Type} {NF : Number F} {TF : Trig F}.
Context {JDR : Type} {TC : TimeContext F JDR}.
Context {C : Type} {CS : CacheSpace F JDR C}.

Local Open Scope string_scope.

Lemma known_item (item : string) :
  unknown item = false -> item = "l" \/ item = "b" \/ item = "r".
Proof.
  unfold unknown.
  destruct (String.eqb_spec item "l"); [auto|].
  destruct (String.eqb_spec item "b"); [auto|].
  destruct (String.eqb_spec item "r"); [auto|discriminate].
Qed.

(** X11. [setTruncation] and [getTruncation] round trip: for an item among
    [l], [b] and [r], the array set is the array read back; the arrays of the
    other two items are as before, and the accuracy level reads [custom]. *)
Theorem setTruncation_getTruncation (m : state F JDR C) (item : string)
    (tNumsArray : list (option Z)) :
  unknown item = false ->
  exists m',
    setTruncation m item tNumsArray = (m', Return tt)
    /\ getTruncation m' item = Return (Some tNumsArray)
    /\ get_accuracy m' = "custom"
    /\ forall item', unknown item' = false -> item' <> item ->
         getTruncation m' item' = getTruncation m item'.
Proof.
  intros K. unfold setTruncation. rewrite K. eexists. split; [reflexivity|].
  apply known_item in K.
  split; [destruct K as [ -> | [ -> | -> ] ]; reflexivity|].
  split; [reflexivity|].
  intros item' K' D. apply known_item in K'.
  destruct K as [ -> | [ -> | -> ] ], K' as [ -> | [ -> | -> ] ]; try congruence; reflexivity.
Qed.

(** X12. After [set accuracy] with one of the levels [low], [normal], [high]
    and [fine], [set accuracy] with [complete] succeeds and the level then
    reads [complete], yet the three truncation arrays are still those of the
    former level: none is [undefined], the series are not evaluated in
    full. *)
Theorem accuracy_complete_keeps_truncation (m : state F JDR C) (level : string) :
  In level ["low"; "normal"; "high"; "fine"] ->
  exists m1 m2,
    set_accuracy m level = (m1, Return tt)
    /\ set_accuracy m1 "complete" = (m2, Return tt)
    /\ get_accuracy m2 = "complete"
    /\ forall item, unknown item = false ->
         getTruncation m2 item = getTruncation m1 item
         /\ exists plan, getTruncation m2 item = Return (given plan).
Proof.
  intros L. simpl in L.
  assert (E : forall m1 : state F JDR C,
             truncationNums (l (relabelled m1 "complete")) = truncationNums (l m1)
             /\ truncationNums (b (relabelled m1 "complete")) = truncationNums (b m1)
             /\ truncationNums (r (relabelled m1 "complete")) = truncationNums (r m1)
             /\ accuracy (relabelled m1 "complete") = "complete").
  { intros m1. unfold relabelled.
    destruct (String.eqb_spec "complete" (accuracy m1)) as [Eq|D]; simpl;
      repeat split; auto. }
  assert (G : forall (m1 : state F JDR C) tl tb tr lv,
             truncationNums (l (relabelled (installed m1 tl tb tr) lv)) = given tl
             /\ truncationNums (b (relabelled (installed m1 tl tb tr) lv)) = given tb
             /\ truncationNums (r (relabelled (installed m1 tl tb tr) lv)) = given tr).
  { intros m1 tl tb tr lv. unfold relabelled.
    destruct (negb _); simpl; auto. }
  destruct L as [ <- | [ <- | [ <- | [ <- | [] ] ] ] ];
    (eexists; eexists; split; [reflexivity|]; split; [reflexivity|];
     match goal with
     | |- get_accuracy (relabelled ?m1 _) = _ /\ _ =>
         destruct (E m1) as [El [Eb [Er Ea]]]
     end;
     split; [exact Ea|];
     intros item K; apply known_item in K;
     match goal with
     | |- context [relabelled (installed ?m0 ?tl ?tb ?tr) ?lv] =>
         destruct (G m0 tl tb tr lv) as [Gl [Gb Gr]]
     end;
     destruct K as [ -> | [ -> | -> ] ]; unfold getTruncation, field; simpl;
     [rewrite El, Gl|rewrite Eb, Gb|rewrite Er, Gr]; eauto).
Qed.

Context {CL : @CacheLaws F JDR C CS}.

(** X13. After [setTruncation('b', tNumsArray)] the getter [b] gives the
    series of [b] evaluated with that array, and after
    [setTruncation('r', tNumsArray)] the getter [r] that of [r]: the value
    cached before is not used.  The evaluation is made at the date of the
    calculator. *)
Theorem setTruncation_then_get (m : state F JDR C)
    (tNumsArray : list (option Z)) :
  snd (get_b (fst (setTruncation m "b" tNumsArray)))
  = mkAngle (Some (calc (calculator m) (data (b m)) (Some tNumsArray))) "s"
  /\ snd (get_r (fst (setTruncation m "r" tNumsArray)))
     = Some (calc (calculator m) (data (r m)) (Some tNumsArray)).
Proof.
  split.
  - unfold get_b. cbn [setTruncation unknown fst]. simpl.
    rewrite has_remove_same. simpl. rewrite get_set_same. reflexivity.
  - unfold get_r. simpl. rewrite has_remove_same. simpl.
    rewrite get_set_same. reflexivity.
Qed.

(** X14. [setTruncation('l', tNumsArray)] removes the cached value [l] only:
    once the longitude perturbation has been computed and is cached, the
    getter [longitudePerturbationCorrection] keeps giving that value,
    whatever array is set. *)
Theorem setTruncation_l_keeps_perturbation (m : state F JDR C)
    (tNumsArray : list (option Z)) :
  cache_has (cache m) "longitudePerturbationCorrection" = true ->
  snd (get_longitudePerturbationCorrection
         (fst (setTruncation m "l" tNumsArray)))
  = snd (get_longitudePerturbationCorrection m)
  /\ snd (get_longitudePerturbationCorrection m)
     = mkAngle (cache_get (cache m) "longitudePerturbationCorrection") "s".
Proof.
  intros H. unfold get_longitudePerturbationCorrection. simpl.
  rewrite has_remove_other by discriminate. rewrite H. simpl.
  rewrite get_remove_other by discriminate. split; reflexivity.
Qed.

End FacadeProperties.

Section FacadeTime.

Import String.
Import Moon.

Context {F : Type} {NF : Number F} {TF : Trig F}.
Context {JDR : Type} {TC : TimeContext F JDR}.
Context {C : Type} {CS : CacheSpace F JDR C} {CL : @CacheLaws F JDR C CS}.

Local Open Scope js_scope.

Variable fuel : nat.

(** The last of the dates sampled by [makeMeanTruncationNums]. *)
Local Abbreviation last_sample :=
  (JDateRepository
     (ofZ 260732 + ofZ 99 * ((ofZ 3912458 - ofZ 260732) / ofZ 100))).

Lemma safe_loop_time (dataArray : SeriesModel F) (count : nat) :
  forall (this this' : Calculator JDR) (st st' : Safe.state F),
    jdr this = last_sample \/ (0 < count)%nat ->
    safe_loop fuel dataArray count this st = (this', Return st') ->
    jdr this' = last_sample.
Proof.
  induction count as [|count IH]; intros this this' st st' H; simpl.
  - intros E. injection E as <- _. destruct H; [assumption|lia].
  - destruct (makeMeanTruncationNums fuel dataArray this (Safe.maximumError st))
      as [this1 [plan| |]] eqn:M; try discriminate.
    apply makeMeanTruncationNums_time in M.
    destruct (estimateMaxError this1 dataArray (given plan)); try discriminate.
    destruct (a >? Safe.maximumError st).
    + apply IH. left. exact M.
    + intros E. injection E as <- _. exact M.
Qed.

(** X15. When [setMaxError(item, value, mode)] returns in the mode [mean] or
    [safe] (here for the item [r]), the observation time of the facade is
    what it was, but its calculator is left at the last sampled date: the
    getter [r] then evaluates the series with the new array at that date,
    not at the observation time. *)
Theorem setMaxError_moves_calculator (m m1 : state F JDR C) (value : F)
    (mode : string) :
  mode = "mean"%string \/ mode = "safe"%string ->
  setMaxError fuel m "r" value mode = (m1, Return tt) ->
  get_obTime m1 = get_obTime m
  /\ jdr (calculator m1) = last_sample
  /\ exists plan,
      getTruncation m1 "r" = Return plan
      /\ snd (get_r m1)
         = Some (calc (mkCalculator last_sample) (data (r m)) plan).
Proof.
  intros Hmode. unfold setMaxError. cbn [unknown String.eqb Ascii.eqb Bool.eqb negb andb].
  destruct (value <? ofZ 0); [discriminate|].
  assert (G : forall (k : Calculator JDR) (plan : Plan),
             jdr k = last_sample ->
             (customised (with_truncation (with_calculator m k) "r" plan) "r",
              Return tt) = (m1, Return tt) ->
             get_obTime m1 = get_obTime m
             /\ jdr (calculator m1) = last_sample
             /\ exists plan,
                 getTruncation m1 "r" = Return plan
                 /\ snd (get_r m1)
                    = Some (calc (mkCalculator last_sample) (data (r m)) plan)).
  { intros [j] plan Hj E. simpl in Hj. subst j. injection E as <-.
    split; [reflexivity|]. split; [reflexivity|].
    exists plan. split; [reflexivity|].
    unfold get_r. simpl. rewrite has_remove_same. simpl.
    rewrite get_set_same. reflexivity. }
  destruct Hmode as [-> | ->]; cbv zeta; simpl toLowerCase;
    cbn [String.eqb Ascii.eqb Bool.eqb].
  - destruct (makeMeanTruncationNums fuel (data (field m "r")) (calculator m) value)
      as [k [plan| |]] eqn:M; try discriminate.
    apply makeMeanTruncationNums_time in M. apply G, M.
  - destruct (makeSafeTruncationNums fuel (data (field m "r")) (calculator m) value)
      as [k [plan| |]] eqn:M; try discriminate.
    unfold makeSafeTruncationNums in M.
    destruct (safe_loop _ _ _ _ _) as [k1 [st| |]] eqn:L; try discriminate.
    simpl in M. injection M as -> _.
    apply safe_loop_time in L; [|right; lia]. apply G, L.
Qed.

End FacadeTime.

(** ** The list store meets what is taken for granted of the cache *)

Section ListCache.

Import String.
Import Moon.

Context {F JDR : Type}.

Local Open Scope string_scope.

Lemma list_has_remove_same (c : list (string * F)) (k : string) :
  existsb (fun e => fst e =? k) (filter (fun e => negb (fst e =? k)) c) = false.
Proof.
  induction c as [|[k0 v] c IH]; simpl; [reflexivity|].
  destruct (k0 =? k) eqn:E; simpl; [exact IH|]. rewrite E. exact IH.
Qed.

Lemma list_has_remove_other (c : list (string * F)) (k k' : string) :
  k <> k' ->
  existsb (fun e => fst e =? k') (filter (fun e => negb (fst e =? k)) c)
  = existsb (fun e => fst e =? k') c.
Proof.
  intros D. induction c as [|[k0 v] c IH]; simpl; [reflexivity|].
  destruct (String.eqb_spec k0 k) as [->|N]; simpl.
  - destruct (String.eqb_spec k k'); [congruence|]. exact IH.
  - rewrite IH. reflexivity.
Qed.

Lemma list_find_remove_other (c : list (string * F)) (k k' : string) :
  k <> k' ->
  find (fun e => fst e =? k') (filter (fun e => negb (fst e =? k)) c)
  = find (fun e => fst e =? k') c.
Proof.
  intros D. induction c as [|[k0 v] c IH]; simpl; [reflexivity|].
  destruct (String.eqb_spec k0 k) as [->|N]; simpl.
  - destruct (String.eqb_spec k k'); [congruence|]. exact IH.
  - rewrite IH. reflexivity.
Qed.

#[global] Instance list_cache_laws : @CacheLaws F JDR _ (list_cache F JDR).
Proof.
  split; simpl.
  - apply list_has_remove_same.
  - apply list_has_remove_other.
  - intros c k k' D. rewrite (list_find_remove_other c D). reflexivity.
  - intros c k v. rewrite String.eqb_refl. reflexivity.
Qed.

End ListCache.

(** ** The further properties at concrete inputs *)

Section MeanOfConstant.

Context {F : Type} {NF : Number F}.
Context {JDR : Type} {TC : TimeContext F JDR}.

Local Open Scope js_scope.

(** When the optimizer returns the same array at every date, the sampling
    loop sums that array once per sample. *)
Lemma mean_loop_constant (fuel : nat) (dataArray : SeriesModel F)
    (maximumError jd0 t : F) (plan : list Z) :
  (forall k, makeTruncationNums fuel k dataArray maximumError = Return plan) ->
  forall (count i : nat) (this : Calculator JDR) (sumsArray : list Z),
    mean_loop fuel dataArray maximumError jd0 t (S count) i this sumsArray
    = (mkCalculator (JDateRepository (jd0 + ofZ (Z.of_nat (i + count)) * t)),
       Return (Nat.iter (S count) (fun s => accumulate s plan) sumsArray)).
Proof.
  intros H. induction count as [|count IH]; intros i this sumsArray;
    rewrite mean_loop_S; cbv zeta; rewrite H.
  - simpl. rewrite Nat.add_0_r. reflexivity.
  - rewrite IH. rewrite (Nat.iter_succ_r (S count)).
    replace (S i + count)%nat with (i + S count)%nat by lia. reflexivity.
Qed.

End MeanOfConstant.

Section WitnessesOnDoubles.

Import String Floats.
Import Double Examples MoreExamples Moon.

Local Open Scope string_scope.

(** X2 at the scenario: an entry 7 for the block of three terms. *)
Lemma estimateMaxError_covers_witness :
  estimateMaxError J2000 scenario (Some [Some 7%Z])
  = estimateMaxError J2000 scenario None.
Proof.
  apply (estimateMaxError_covers J2000 (dataArray := scenario)
           (tNumsArray := Some [Some 7%Z])).
  intros [|[|i]] block n Hb He; simpl in Hb, He; try discriminate.
  injection Hb as <-. injection He as <-. simpl. lia.
Defined.

(** X4 at the scenario. *)
Lemma makeTruncationNums_single_block_witness :
  exists n,
    makeTruncationNums 3 J2000 [[term 10; term 3; term 1]] 25%float = Return [n]
    /\ (Z.min 3 (Z.of_nat (List.length [term 10; term 3; term 1])) <= n
        <= Z.of_nat (List.length [term 10; term 3; term 1]))%Z.
Proof.
  apply (makeTruncationNums_single_block J2000
           (block := [term 10; term 3; term 1]) (fuel := 3) 25%float).
  - discriminate.
  - reflexivity.
  - lia.
  - simpl. lia.
Defined.

Lemma nonempty_two_blocks : nonempty_blocks two_blocks.
Proof. repeat constructor; discriminate. Qed.

(** X5 at two blocks: the array returned is [[0; 2]], block 1 alone is used
    in full. *)
Lemma makeTruncationNums_one_full_witness :
  makeTruncationNums 100 documented two_blocks 5%float = Return [0%Z; 2%Z]
  /\ (1 = 1)%nat.
Proof.
  assert (E : makeTruncationNums 100 documented two_blocks 5%float
              = Return [0%Z; 2%Z]) by (vm_compute; reflexivity).
  split; [exact E|].
  apply (makeTruncationNums_one_full documented (dataArray := two_blocks)
           100 5%float nonempty_two_blocks E 1 1
           (block := [term 3; term 1]) (block' := [term 3; term 1]));
    reflexivity.
Defined.

(** X6 at two blocks, the first one empty. *)
Lemma makeTruncationNums_empty_first_witness :
  makeTruncationNums 1 J2000 empty_first 5%float = Throw TypeError.
Proof.
  apply (makeTruncationNums_empty_first J2000 [[term 3]] 0 5%float).
  reflexivity.
Defined.

(** X7 at two blocks, the last one empty. *)
Lemma makeTruncationNums_empty_last_witness :
  makeTruncationNums 1 J2000 empty_last 5%float = Return [0%Z; 0%Z].
Proof.
  apply (makeTruncationNums_empty_last J2000 (first := [term 10]) [] 0 5%float).
  - discriminate.
  - reflexivity.
Defined.

(** X9 at the scenario. *)
Lemma makeMeanTruncationNums_in_range_witness : in_range scenario [3%Z].
Proof.
  eapply (makeMeanTruncationNums_in_range 3 (dataArray := scenario)
            documented 5%float).
  - exact nonempty_scenario.
  - vm_compute. reflexivity.
Defined.

(** X10 at the scenario. *)
Lemma makeSafeTruncationNums_in_range_witness :
  exists plan, Some [3%Z] = Some plan /\ in_range scenario plan.
Proof.
  eapply (makeSafeTruncationNums_in_range 3 (dataArray := scenario)
            documented 3%float).
  - exact nonempty_scenario.
  - vm_compute. reflexivity.
Defined.

(** X11 at the item [b]. *)
Lemma setTruncation_getTruncation_witness :
  exists m',
    setTruncation double_moon "b" [Some 2%Z] = (m', Return tt)
    /\ getTruncation m' "b" = Return (Some [Some 2%Z])
    /\ get_accuracy m' = "custom"%string
    /\ forall item', unknown item' = false -> item' <> "b"%string ->
         getTruncation m' item' = getTruncation double_moon item'.
Proof.
  apply (setTruncation_getTruncation double_moon "b" [Some 2%Z]).
  reflexivity.
Defined.

(** X12 at the level [low]. *)
Lemma accuracy_complete_keeps_truncation_witness :
  exists m1 m2,
    set_accuracy double_moon "low" = (m1, Return tt)
    /\ set_accuracy m1 "complete" = (m2, Return tt)
    /\ get_accuracy m2 = "complete"%string
    /\ forall item, unknown item = false ->
         getTruncation m2 item = getTruncation m1 item
         /\ exists plan, getTruncation m2 item = Return (given plan).
Proof.
  apply (accuracy_complete_keeps_truncation double_moon (level := "low")).
  simpl. auto.
Defined.

End WitnessesOnDoubles.

(** *** The budget test on four terms *)

Section BudgetTest.

Import Reals Lra.
Import Exact MoreExamples.

Local Open Scope R_scope.






End BudgetTest.

Section WitnessesOnReals.

Import String Reals Lra.
Import Exact MoreExamples Moon.

Local Open Scope string_scope.
Local Open Scope R_scope.

(** X1 at one block of one term: an entry 5, and a second entry that meets
    no block. *)
Lemma calc_covers_witness :
  calc epoch one_term (Some [Some 5%Z; Some 0%Z]) = calc epoch one_term None.
Proof.
  apply (calc_covers epoch (dataArray := one_term)
           (tNumsArray := Some [Some 5%Z; Some 0%Z])).
  intros [|[|i]] block n Hb He; simpl in Hb, He; try discriminate.
  injection Hb as <-. injection He as <-. simpl. lia.
Defined.

(** X13 at the array [[1]]. *)
Lemma setTruncation_then_get_witness :
  snd (get_b (fst (setTruncation exact_moon "b" [Some 1%Z])))
  = mkAngle (Some (calc (calculator exact_moon) (data (b exact_moon))
                     (Some [Some 1%Z]))) "s"
  /\ snd (get_r (fst (setTruncation exact_moon "r" [Some 1%Z])))
     = Some (calc (calculator exact_moon) (data (r exact_moon))
               (Some [Some 1%Z])).
Proof.
  apply (setTruncation_then_get (CL := list_cache_laws) exact_moon [Some 1%Z]).
Defined.

(** X14 with the perturbation cached as 1. *)
Lemma setTruncation_l_keeps_perturbation_witness :
  snd (get_longitudePerturbationCorrection
         (fst (setTruncation cached_moon "l" [Some 0%Z])))
  = snd (get_longitudePerturbationCorrection cached_moon)
  /\ snd (get_longitudePerturbationCorrection cached_moon)
     = mkAngle
         (cache_get (JDR := JDate) (cache cached_moon)
            "longitudePerturbationCorrection")
         "s".
Proof.
  apply (setTruncation_l_keeps_perturbation (CL := list_cache_laws)
           cached_moon [Some 0%Z]).
  reflexivity.
Defined.

Lemma budget_five : (nlt 5 (ofZ 0) : bool) = false.
Proof.
  simpl. unfold ltb. destruct (Rlt_dec 5 0); [lra|reflexivity].
Qed.

Lemma one_term_plan (k : Calculator JDate) :
  makeTruncationNums 2 k one_term 5 = Return [1%Z].
Proof.
  destruct (single_block_run k (block := [term 1]) (fuel := 2) 5)
    as [n [E R]]; try discriminate; try exact budget_five; simpl; try lia.
  simpl in R. replace n with 1%Z in E by lia. exact E.
Qed.

Lemma one_term_mean (k : Calculator JDate) :
  makeMeanTruncationNums 2 one_term k 5
  = (mkCalculator last_sample, Return [1%Z]).
Proof.
  unfold makeMeanTruncationNums. cbv zeta.
  rewrite mean_loop_constant with (plan := [1%Z]) by apply one_term_plan.
  reflexivity.
Qed.

(** X15 at the budget 5 in the mode [mean]. *)
Lemma setMaxError_moves_calculator_witness :
  get_obTime averaged_moon = get_obTime exact_moon
  /\ jdr (calculator averaged_moon)
     = JDateRepository
         (ofZ 260732 + ofZ 99 * ((ofZ 3912458 - ofZ 260732) / ofZ 100))%js
  /\ exists plan,
      getTruncation averaged_moon "r" = Return plan
      /\ snd (get_r averaged_moon)
         = Some (calc
                   (mkCalculator
                      (JDateRepository
                         (ofZ 260732
                          + ofZ 99 * ((ofZ 3912458 - ofZ 260732) / ofZ 100))%js))
                   (data (r exact_moon)) plan).
Proof.
  apply (setMaxError_moves_calculator (CL := list_cache_laws) 2 exact_moon
           (m1 := averaged_moon) 5 (mode := "mean") (or_introl eq_refl)).
  unfold setMaxError.
  change (unknown "r") with false. cbv iota.
  rewrite budget_five. cbv zeta.
  change (toLowerCase "mean") with "mean"%string.
  change ("mean" =? "true")%string with false.
  change ("mean" =? "mean")%string with true. cbv iota.
  change (data (field exact_moon "r")) with one_term.
  rewrite one_term_mean. reflexivity.
Defined.

End WitnessesOnReals.
